(** * cyclonedx-gomod: the module graph of [internal/gomod]

    A shallow embedding of [internal/gomod/gomod.go] and
    [internal/gomod/version.go], and the properties of the module graph
    that the specification states about them.

    Go strings are byte sequences: they are modelled as [string], one
    [ascii] per byte.  A [*Module] is modelled as a reference into the
    module slice ([ModRef]), so that the in-place updates of
    [parseModuleGraph] and [resolveLocalModule] are visible through every
    alias, as they are in the Go code. *)

From Stdlib Require Import ZArith Lia Ascii String.
From stdpp Require Import base option list strings pretty.

Local Open Scope string_scope.
Local Open Scope list_scope.

(** ** Results of fallible code *)

(** Go errors.  [ErrNoGoModule] is the package's own sentinel;
    [ErrObjectNotFound] is [plumbing.ErrObjectNotFound]; [ErrEOF] is
    [io.EOF]; [ErrExternal] stands for an error value produced by a
    collaborator (the go command, go-git, the JSON decoder, dirhash);
    [ErrFormatted] is a [fmt.Errorf] without [%w]; [ErrWrapped] is a
    [fmt.Errorf] with [%w]: it keeps the formatted message and the cause. *)
Inductive error : Type :=
| ErrNoGoModule
| ErrObjectNotFound
| ErrEOF
| ErrExternal (msg : string)
| ErrFormatted (msg : string)
| ErrWrapped (msg : string) (cause : error).

Definition errorText (e : error) : string :=
  match e with
  | ErrNoGoModule => "not a Go module"
  | ErrObjectNotFound => "object not found"
  | ErrEOF => "EOF"
  | ErrExternal msg => msg
  | ErrFormatted msg => msg
  | ErrWrapped msg _ => msg
  end.

Fixpoint error_eqb (a b : error) : bool :=
  match a, b with
  | ErrNoGoModule, ErrNoGoModule => true
  | ErrObjectNotFound, ErrObjectNotFound => true
  | ErrEOF, ErrEOF => true
  | ErrExternal x, ErrExternal y => String.eqb x y
  | ErrFormatted x, ErrFormatted y => String.eqb x y
  | ErrWrapped x c, ErrWrapped y d => String.eqb x y && error_eqb c d
  | _, _ => false
  end.

(** [errors.Is]: the target is the error itself or a cause in its chain. *)
Fixpoint errors_Is (e target : error) : bool :=
  error_eqb e target ||
  match e with
  | ErrWrapped _ cause => errors_Is cause target
  | _ => false
  end.

(** A call returns a value, returns an error, or panics (a run-time
    panic is not an [error]: it unwinds and crashes the program). *)
Inductive result (A : Type) : Type :=
| Ok (a : A)
| Err (e : error)
| Panic (msg : string).
Arguments Ok {A} a.
Arguments Err {A} e.
Arguments Panic {A} msg.

Definition rbind {A B : Type} (r : result A) (k : A -> result B) : result B :=
  match r with
  | Ok a => k a
  | Err e => Err e
  | Panic msg => Panic msg
  end.

(** [fmt.Errorf(prefix + ": %w", err)] applied to a failed call. *)
Definition wrapErr {A : Type} (prefix : string) (r : result A) : result A :=
  match r with
  | Err e => Err (ErrWrapped (prefix +:+ ": " +:+ errorText e) e)
  | other => other
  end.

Definition isOk {A : Type} (r : result A) : bool :=
  match r with Ok _ => true | _ => false end.

(** ** Package [strings] on byte strings *)

Module strings.

Definition byte (c : ascii) : N := N_of_ascii c.

(** The ASCII white space of [unicode.IsSpace]: TAB, LF, VT, FF, CR, SP. *)
Definition asciiSpace (b : N) : bool :=
  ((9 <=? b) && (b <=? 13) || (b =? 32))%N.

(** Number of bytes of the white-space rune that [s] starts with, 0 when
    it starts with none.  Besides the ASCII ones, [unicode.IsSpace] holds
    of U+0085, U+00A0, U+1680, U+2000..U+200A, U+2028, U+2029, U+202F,
    U+205F and U+3000, recognised here by their UTF-8 encodings.  A lead
    byte of these encodings is never the continuation byte of another
    rune, so matching bytes is matching runes. *)
Definition spaceWidth (s : string) : nat :=
  match s with
  | EmptyString => 0
  | String c1 r1 =>
    let b1 := byte c1 in
    if asciiSpace b1 then 1 else
    match r1 with
    | EmptyString => 0
    | String c2 r2 =>
      let b2 := byte c2 in
      if ((b1 =? 194) && ((b2 =? 133) || (b2 =? 160)))%N then 2 else
      match r2 with
      | EmptyString => 0
      | String c3 _ =>
        let b3 := byte c3 in
        if (((b1 =? 225) && (b2 =? 154) && (b3 =? 128))
            || ((b1 =? 226) && (b2 =? 128)
                && (((128 <=? b3) && (b3 <=? 138))
                    || (b3 =? 168) || (b3 =? 169) || (b3 =? 175)))
            || ((b1 =? 226) && (b2 =? 129) && (b3 =? 159))
            || ((b1 =? 227) && (b2 =? 128) && (b3 =? 128)))%N
        then 3 else 0
      end
    end
  end.

Definition flush (cur : string) : list string :=
  if String.eqb cur "" then [] else [cur].

(** [skip] counts the bytes still to drop of the white-space rune being
    read; [cur] is the field being read. *)
Fixpoint fieldsFrom (skip : nat) (cur : string) (s : string) : list string :=
  match s with
  | EmptyString => flush cur
  | String c r =>
    match skip with
    | S k => fieldsFrom k cur r
    | O =>
      match spaceWidth s with
      | O => fieldsFrom 0 (cur +:+ String c "") r
      | S k => flush cur ++ fieldsFrom k "" r
      end
    end
  end.

(** [strings.Fields] *)
Definition Fields (s : string) : list string := fieldsFrom 0 "" s.

Fixpoint trimLeftFrom (skip : nat) (s : string) : string :=
  match s with
  | EmptyString => ""
  | String c r =>
    match skip with
    | S k => trimLeftFrom k r
    | O =>
      match spaceWidth s with
      | O => s
      | S k => trimLeftFrom k r
      end
    end
  end.

Fixpoint allSpaceFrom (skip : nat) (s : string) : bool :=
  match s with
  | EmptyString => true
  | String c r =>
    match skip with
    | S k => allSpaceFrom k r
    | O =>
      match spaceWidth s with
      | O => false
      | S k => allSpaceFrom k r
      end
    end
  end.

Fixpoint trimRight (s : string) : string :=
  match s with
  | EmptyString => ""
  | String c r => if allSpaceFrom 0 s then "" else String c (trimRight r)
  end.

(** [strings.TrimSpace] *)
Definition TrimSpace (s : string) : string := trimRight (trimLeftFrom 0 s).

(** [strings.HasPrefix] *)
Definition HasPrefix (s pre : string) : bool := String.prefix pre s.

Fixpoint drop (n : nat) (s : string) : string :=
  match n, s with
  | S k, String _ r => drop k r
  | _, _ => s
  end.

(** [strings.TrimPrefix] *)
Definition TrimPrefix (s pre : string) : string :=
  if HasPrefix s pre then drop (String.length pre) s else s.

(** [strings.Join] *)
Fixpoint Join (elems : list string) (sep : string) : string :=
  match elems with
  | [] => ""
  | [e] => e
  | e :: rest => e +:+ sep +:+ Join rest sep
  end.

End strings.

(** ** [bufio.Scanner] with the default [ScanLines] split *)

Module bufio.

(** [bufio.MaxScanTokenSize] *)
Definition MaxScanTokenSize : N := 65536.

Definition LF : ascii := ascii_of_nat 10.
Definition CR : ascii := ascii_of_nat 13.

Fixpoint dropCR (s : string) : string :=
  match s with
  | EmptyString => ""
  | String c EmptyString => if Ascii.eqb c CR then "" else s
  | String c r => String c (dropCR r)
  end.

(** The tokens [Scan] yields until it returns false.  [cur] is the
    line being read and [n] its length.  A line reaching
    [MaxScanTokenSize] bytes without its newline fills the buffer:
    [Scan] returns false with [ErrTooLong] and nothing more is
    yielded.  The callers in this package never look at
    [scanner.Err()], so the model drops it as well. *)
Fixpoint scanFrom (cur : string) (n : N) (s : string) : list string :=
  match s with
  | EmptyString => if (n =? 0)%N then [] else [dropCR cur]
  | String c r =>
    if Ascii.eqb c LF then dropCR cur :: scanFrom "" 0 r
    else if (MaxScanTokenSize <=? n + 1)%N then []
    else scanFrom (cur +:+ String c "") (n + 1) r
  end.

Definition scanLines (input : string) : list string := scanFrom "" 0 input.

End bufio.

(** ** Package [path/filepath] (Unix) *)

Module filepath.

Definition slash : ascii := "/"%char.

(** The elements of a path between its separators (empty elements
    included). *)
Fixpoint splitFrom (cur : string) (s : string) : list string :=
  match s with
  | EmptyString => [cur]
  | String c r =>
    if Ascii.eqb c slash then cur :: splitFrom "" r
    else splitFrom (cur +:+ String c "") r
  end.

Definition elements (p : string) : list string := splitFrom "" p.

(** [filepath.IsAbs] *)
Definition IsAbs (p : string) : bool := strings.HasPrefix p "/".

(** One element of the path read by [Clean]; [out] holds the elements
    written so far, last first.  An empty element and [.] are dropped;
    [..] removes the last written element when there is one that is
    not itself [..], is dropped at the root, and is kept otherwise. *)
Definition cleanStep (rooted : bool) (out : list string) (e : string)
  : list string :=
  if String.eqb e "" || String.eqb e "." then out
  else if String.eqb e ".." then
    match out with
    | top :: below =>
      if String.eqb top ".." then e :: out else below
    | [] => if rooted then [] else [e]
    end
  else e :: out.

(** [filepath.Clean] *)
Definition Clean (p : string) : string :=
  if String.eqb p "" then "." else
  let rooted := IsAbs p in
  let out := fold_left (cleanStep rooted) (elements p) [] in
  let body := strings.Join (rev out) "/" in
  if rooted then "/" +:+ body
  else if String.eqb body "" then "." else body.

(** [filepath.Join]: leading empty elements are ignored, the rest is
    joined with the separator and cleaned. *)
Fixpoint Join (elem : list string) : string :=
  match elem with
  | [] => ""
  | e :: rest =>
    if String.eqb e "" then Join rest
    else Clean (strings.Join elem "/")
  end.

End filepath.

(** ** The data model *)

(** A [*Module] handed out by [findModule]: the address of an element of
    the module slice, [&modules[i]], or the pointer stored in its
    [Replace] field, [modules[i].Replace].  Every parser of this package
    allocates the replacement of a record afresh, so two records never
    share one. *)
Inductive ModRef : Type :=
| SliceElem (i : nat)
| ReplaceOf (i : nat).

(** [type Module struct]; a nil [Dependencies] slice is the empty list. *)
#[warnings="-register-all"]
Inductive Module : Type := mkModule {
  Dir : string;
  Main : bool;
  Path : string;
  Replace : option Module;
  Version : string;
  Dependencies : list ModRef;
  Vendored : bool
}.

Definition withPath (p : string) (m : Module) : Module :=
  mkModule (Dir m) (Main m) p (Replace m) (Version m) (Dependencies m) (Vendored m).

Definition withVersion (v : string) (m : Module) : Module :=
  mkModule (Dir m) (Main m) (Path m) (Replace m) v (Dependencies m) (Vendored m).

Definition withReplace (r : option Module) (m : Module) : Module :=
  mkModule (Dir m) (Main m) (Path m) r (Version m) (Dependencies m) (Vendored m).

Definition withDependencies (d : list ModRef) (m : Module) : Module :=
  mkModule (Dir m) (Main m) (Path m) (Replace m) (Version m) d (Vendored m).

Definition withVendored (b : bool) (m : Module) : Module :=
  mkModule (Dir m) (Main m) (Path m) (Replace m) (Version m) (Dependencies m) b.

(** [func (m Module) Coordinates() string] *)
Definition Coordinates (m : Module) : string :=
  if String.eqb (Version m) "" then Path m
  else Path m +:+ "@" +:+ Version m.

(** [func (m Module) PackageURL() string] *)
Definition PackageURL (m : Module) : string :=
  "pkg:golang/" +:+ Coordinates m.

(** What a [ModRef] points to in the slice [modules]. *)
Definition deref (modules : list Module) (r : ModRef) : option Module :=
  match r with
  | SliceElem i => modules !! i
  | ReplaceOf i =>
    match modules !! i with
    | Some m => Replace m
    | None => None
    end
  end.

(** ** Slices *)

(** [s[i]] on a slice: a run-time panic when [i] is out of range. *)
Definition elemAt {A : Type} (s : list A) (i : Z) : result A :=
  if (i <? 0)%Z then
    Panic ("runtime error: index out of range [" +:+ pretty i +:+ "]")
  else
    match s !! Z.to_nat i with
    | Some a => Ok a
    | None =>
      Panic ("runtime error: index out of range [" +:+ pretty i
             +:+ "] with length " +:+ pretty (length s))
    end.

(** [len(s)] as a Go [int]. *)
Definition len {A : Type} (s : list A) : Z := Z.of_nat (length s).

Module util.

Fixpoint indexFrom (i : Z) (haystack : list string) (needle : string) : Z :=
  match haystack with
  | [] => (-1)%Z
  | h :: rest =>
    if String.eqb h needle then i else indexFrom (i + 1)%Z rest needle
  end.

(** Modelled from the spec: [util.StringSliceIndex] is not among the
    sources.  The vendor manifest's replacement form is "arrow-delimited":
    the arrow token separates original from replacement, and the caller
    compares the result with -1, so this is the index of the first
    element equal to [needle], and -1 when there is none. *)
Definition StringSliceIndex (haystack : list string) (needle : string) : Z :=
  indexFrom 0 haystack needle.

(** Modelled from the spec: [util.StartsWith] is not among the sources;
    a tag counts when its "name begins with the conventional prefix". *)
Definition StartsWith (s pre : string) : bool := strings.HasPrefix s pre.

End util.

(** ** Parsing the vendor manifest *)

Definition fieldCountError (fields : list string) (line : string) : error :=
  ErrFormatted ("expected two fields per line, but got "
                +:+ pretty (length fields) +:+ ": " +:+ line).

(** The body of the scan loop of [parseVendoredModules] for one token of
    the scanner: [Ok None] when the line is passed over ([continue]),
    [Ok (Some m)] when [m] is appended to [modules]. *)
Definition parseVendoredLine (path : string) (text : string)
  : result (option Module) :=
  let line := strings.TrimSpace text in
  if negb (strings.HasPrefix line "# ") then Ok None else
  let fields := strings.Fields (strings.TrimPrefix line "# ") in
  let arrowIndex := util.StringSliceIndex fields "=>" in
  if (arrowIndex =? -1)%Z then
    if negb (len fields =? 2)%Z then Err (fieldCountError fields line)
    else
      rbind (elemAt fields 0) (fun f0 =>
      rbind (elemAt fields 1) (fun f1 =>
      Ok (Some (mkModule (filepath.Join [path; "vendor"; f0])
                         false f0 None f1 [] true))))
  else
    rbind (elemAt fields 0) (fun pathParent =>
    rbind (if (arrowIndex =? 2)%Z then elemAt fields 1 else Ok "")
          (fun versionParent =>
    rbind (elemAt fields (arrowIndex + 1)) (fun pathReplacement =>
    rbind (if (len fields =? arrowIndex + 3)%Z
           then elemAt fields (arrowIndex + 2) else Ok "")
          (fun versionReplacement =>
    Ok (Some (mkModule "" false pathParent
                (Some (mkModule (filepath.Join [path; "vendor"; pathParent])
                                false pathReplacement None
                                versionReplacement [] true))
                versionParent [] false)))))).

Fixpoint parseVendoredLines (path : string) (lines : list string)
  (modules : list Module) : result (list Module) :=
  match lines with
  | [] => Ok modules
  | text :: rest =>
    match parseVendoredLine path text with
    | Ok None => parseVendoredLines path rest modules
    | Ok (Some m) => parseVendoredLines path rest (modules ++ [m])
    | Err e => Err e
    | Panic msg => Panic msg
    end
  end.

(** [func parseVendoredModules(path string, reader io.Reader) ([]Module, error)] *)
Definition parseVendoredModules (path : string) (reader : string)
  : result (list Module) :=
  parseVendoredLines path (bufio.scanLines reader) [].

(** ** Assembling the graph *)

Fixpoint findModuleFrom (i : nat) (modules : list Module) (coordinates : string)
  : option ModRef :=
  match modules with
  | [] => None
  | m :: rest =>
    if String.eqb coordinates (Coordinates m) then
      match Replace m with
      | Some _ => Some (ReplaceOf i)
      | None => Some (SliceElem i)
      end
    else findModuleFrom (S i) rest coordinates
  end.

(** [func findModule(modules []Module, coordinates string) *Module];
    [None] is the nil pointer. *)
Definition findModule (modules : list Module) (coordinates : string)
  : option ModRef :=
  findModuleFrom 0 modules coordinates.

Definition addDependency (dependency : ModRef) (m : Module) : Module :=
  withDependencies (Dependencies m ++ [dependency]) m.

(** [dependant.Dependencies = append(dependant.Dependencies, dependency)]
    through the pointer [dependant]. *)
Definition appendDependency (modules : list Module)
  (dependant dependency : ModRef) : list Module :=
  match dependant with
  | SliceElem i => alter (addDependency dependency) i modules
  | ReplaceOf i =>
    alter (fun m => withReplace (addDependency dependency <$> Replace m) m)
          i modules
  end.

(** The body of the scan loop of [parseModuleGraph] for one token. *)
Definition parseModuleGraphLine (modules : list Module) (text : string)
  : result (list Module) :=
  let line := strings.TrimSpace text in
  if String.eqb line "" then Ok modules else
  let fields := strings.Fields line in
  if negb (len fields =? 2)%Z then Err (fieldCountError fields line)
  else
    rbind (elemAt fields 0) (fun f0 =>
    rbind (elemAt fields 1) (fun f1 =>
    match findModule modules f0 with
    | None => Ok modules
    | Some dependant =>
      match findModule modules f1 with
      | None => Ok modules
      | Some dependency => Ok (appendDependency modules dependant dependency)
      end
    end)).

Fixpoint parseModuleGraphLines (lines : list string) (modules : list Module)
  : result (list Module) :=
  match lines with
  | [] => Ok modules
  | text :: rest =>
    rbind (parseModuleGraphLine modules text) (parseModuleGraphLines rest)
  end.

(** [func parseModuleGraph(reader io.Reader, modules []Module) error]:
    the slice is updated in place; [Ok] carries it as it is when nil is
    returned. *)
Definition parseModuleGraph (reader : string) (modules : list Module)
  : result (list Module) :=
  parseModuleGraphLines (bufio.scanLines reader) modules.

(** ** Package [time]: what [Format] reads of a [time.Time] *)

Module time.

(** An instant with the fixed zone it is shown in, as go-git builds the
    time of a signature: [time.Unix(sec, 0).In(time.FixedZone("", off))],
    [sec] an [int64] and [off] an [int].  The package is the one of
    Go 1.18, which the [Dockerfile] builds with. *)
Record Time : Type := mkTime {
  unixSec : Z;
  zoneOffset : Z
}.

Local Open Scope Z_scope.

(** An [int64] after an addition: the sum wraps around. *)
Definition wrapInt64 (z : Z) : Z := (z + 2 ^ 63) mod 2 ^ 64 - 2 ^ 63.

(** [sec += int64(offset)] in [locabs]: seconds since the Unix epoch on
    the wall clock of the zone. *)
Definition wallSec (t : Time) : Z := wrapInt64 (unixSec t + zoneOffset t).

(** [unixToInternal + internalToAbsolute]: the seconds from 1 January
    of the year -292277022399, where the absolute time of the package
    starts, to the Unix epoch. *)
Definition unixToAbsolute : Z := 9223372028715321600.

(** [abs = uint64(sec + (unixToInternal + internalToAbsolute))] *)
Definition absSec (t : Time) : Z := (wallSec t + unixToAbsolute) mod 2 ^ 64.

(** The day of the absolute time, counted from 1 January 1970, and the
    second of that day. *)
Definition dayNumber (t : Time) : Z :=
  absSec t / 86400 - unixToAbsolute / 86400.
Definition secondOfDay (t : Time) : Z := absSec t mod 86400.

(** Day of the 400-year era, counted from 1 March, of a day number
    counted from 1 January 1970 (proleptic Gregorian calendar). *)
Definition eraOf (days : Z) : Z := (days + 719468) / 146097.
Definition dayOfEra (days : Z) : Z := (days + 719468) mod 146097.

Definition yearOfEra (doe : Z) : Z :=
  (doe - doe / 1460 + doe / 36524 - doe / 146096) / 365.

Definition dayOfYear (doe : Z) : Z :=
  let yoe := yearOfEra doe in
  doe - (365 * yoe + yoe / 4 - yoe / 100).

Definition monthIndex (doe : Z) : Z := (5 * dayOfYear doe + 2) / 153.

Definition Month (t : Time) : Z :=
  let mp := monthIndex (dayOfEra (dayNumber t)) in
  if mp <? 10 then mp + 3 else mp - 9.

Definition Day (t : Time) : Z :=
  let doe := dayOfEra (dayNumber t) in
  dayOfYear doe - (153 * monthIndex doe + 2) / 5 + 1.

Definition Year (t : Time) : Z :=
  let days := dayNumber t in
  yearOfEra (dayOfEra days) + eraOf days * 400
  + (if Month t <=? 2 then 1 else 0).

Definition Hour (t : Time) : Z := secondOfDay t / 3600.
Definition Minute (t : Time) : Z := (secondOfDay t mod 3600) / 60.
Definition Second (t : Time) : Z := secondOfDay t mod 60.

Fixpoint zeros (n : nat) : string :=
  match n with
  | O => ""
  | S k => String "0" (zeros k)
  end.

(** [appendInt]: the decimal form of [x], its digits padded with
    zeros to [width], after a minus sign when [x] is negative. *)
Definition appendInt (x : Z) (width : nat) : string :=
  let digits := pretty (Z.abs x) in
  (if x <? 0 then "-" else "")
  +:+ zeros (width - String.length digits) +:+ digits.

(** The day number, counted from 1 January 1970, of a date of the
    proleptic Gregorian calendar. *)
Definition daysFromCivil (year month day : Z) : Z :=
  let y := if month <=? 2 then year - 1 else year in
  let era := y / 400 in
  let yoe := y mod 400 in
  let mp := if month <=? 2 then month + 9 else month - 3 in
  let doy := (153 * mp + 2) / 5 + day - 1 in
  let doe := yoe * 365 + yoe / 4 - yoe / 100 + doy in
  era * 146097 + doe - 719468.

(** The seconds from the Unix epoch to a date and a time of day. *)
Definition civilSeconds (year month day hour minute second : Z) : Z :=
  daysFromCivil year month day * 86400
  + hour * 3600 + minute * 60 + second.

(** [t.Format("20060102150405")] *)
Definition Format20060102150405 (t : Time) : string :=
  appendInt (Year t) 4 +:+ appendInt (Month t) 2 +:+ appendInt (Day t) 2
  +:+ appendInt (Hour t) 2 +:+ appendInt (Minute t) 2
  +:+ appendInt (Second t) 2.

End time.

(** ** go-git: what the package reads of a repository *)

Module git.

(** [plumbing.Hash], a [[20]byte]. *)
Record Hash : Type := mkHash {
  hashBytes : list ascii;
  hashSize : length hashBytes = 20
}.

Definition hash_eqb (a b : Hash) : bool :=
  bool_decide (hashBytes a = hashBytes b).

Definition hexDigit (n : N) : ascii :=
  match n with
  | 0 => "0" | 1 => "1" | 2 => "2" | 3 => "3" | 4 => "4" | 5 => "5"
  | 6 => "6" | 7 => "7" | 8 => "8" | 9 => "9" | 10 => "a" | 11 => "b"
  | 12 => "c" | 13 => "d" | 14 => "e" | _ => "f"
  end%N%char.

Fixpoint hexEncode (bytes : list ascii) : string :=
  match bytes with
  | [] => ""
  | b :: rest =>
    let n := N_of_ascii b in
    String (hexDigit (n / 16)) (String (hexDigit (n mod 16)) (hexEncode rest))
  end.

(** [func (h Hash) String() string] *)
Definition HashString (h : Hash) : string := hexEncode (hashBytes h).

(** [plumbing.Reference]: the reference's full name and its target. *)
Record Reference : Type := mkReference {
  refName : string;
  refHash : Hash
}.

(** [object.Commit], with [Author.When]. *)
Record Commit : Type := mkCommit {
  commitHash : Hash;
  authorWhen : time.Time
}.

(** What the calls on an opened [*git.Repository] return: [Head()],
    the references [Tags()] iterates over in its order, and
    [CommitObject(h)]. *)
Record Repository : Type := mkRepository {
  Head : result Reference;
  Tags : result (list Reference);
  CommitObject : Hash -> result Commit
}.

End git.

(** [s[:n]] on a string: a run-time panic when [n] exceeds its length. *)
Definition sliceTo (s : string) (n : nat) : result string :=
  if (n <=? String.length s)%nat then Ok (String.substring 0 n s)
  else Panic ("runtime error: slice bounds out of range [:" +:+ pretty n
              +:+ "] with length " +:+ pretty (String.length s)).

(** ** The collaborators *)

(** The values [json.Decoder.Decode] yields on a buffer, and the error
    that ends them ([ErrEOF] at a clean end of the stream). *)
Record DecodeTrace : Type := mkDecodeTrace {
  decoded : list Module;
  ending : error
}.

(** The state of the machine the package runs on, as far as its calls
    read it.  Each field stands for a collaborator outside this package:
    [util.IsGoModule], [util.IsVendoring], [util.GetModuleCacheDir], the
    four go commands of [gocmd] ([Ok] carries what the command wrote to
    the buffer), [encoding/json] decoding into [Module], [git.PlainOpen]
    and [dirhash.HashDir] with [dirhash.Hash1]. *)
Record World : Type := mkWorld {
  IsGoModule : string -> bool;
  IsVendoring : string -> bool;
  GetModuleCacheDir : string;
  ListModules : string -> result string;
  ListVendoredModules : string -> result string;
  GetModule : string -> result string;
  GetModuleGraph : string -> result string;
  jsonDecoder : string -> DecodeTrace;
  PlainOpen : string -> result git.Repository;
  HashDir : string -> string -> result string
}.

(** ** version.go *)

Section Version.

Variable w : World.

(** The test of the callback of [tags.ForEach]. *)
Definition tagMatches (head : git.Hash) (reference : git.Reference) : bool :=
  git.hash_eqb (git.refHash reference) head
  && util.StartsWith (git.refName reference) "refs/tags/v".

(** The callback of [tags.ForEach] in [GetVersionFromTag], run over the
    tags in order: the name of the first matching tag, cut after
    [refs/tags/]; the empty string when no tag matches.  The callback
    returns nil or [storer.ErrStop], so [ForEach] itself returns nil. *)
Fixpoint forEachTag (head : git.Hash) (tags : list git.Reference) : string :=
  match tags with
  | [] => ""
  | reference :: rest =>
    if tagMatches head reference
    then strings.TrimPrefix (git.refName reference) "refs/tags/"
    else forEachTag head rest
  end.

(** [func GetVersionFromTag(modulePath string) (string, error)] *)
Definition GetVersionFromTag (modulePath : string) : result string :=
  rbind (PlainOpen w modulePath) (fun repo =>
  rbind (git.Head repo) (fun headRef =>
  rbind (git.Tags repo) (fun tags =>
  let tagName := forEachTag (git.refHash headRef) tags in
  if String.eqb tagName "" then Err ErrObjectNotFound
  else Ok tagName))).

(** [func GetPseudoVersion(modulePath string) (string, error)] *)
Definition GetPseudoVersion (modulePath : string) : result string :=
  rbind (PlainOpen w modulePath) (fun repo =>
  rbind (git.Head repo) (fun headRef =>
  rbind (git.CommitObject repo (git.refHash headRef)) (fun headCommit =>
  rbind (sliceTo (git.HashString (git.commitHash headCommit)) 12)
        (fun commitHash =>
  let commitDate := time.Format20060102150405 (git.authorWhen headCommit) in
  Ok ("v0.0.0-" +:+ commitDate +:+ "-" +:+ commitHash))))).

(** [func GetModuleVersion(modulePath string) (string, error)] *)
Definition GetModuleVersion (modulePath : string) : result string :=
  match GetVersionFromTag modulePath with
  | Err _ =>
    match GetPseudoVersion modulePath with
    | Err err => Err err
    | Ok pseudoVersion => Ok pseudoVersion
    | Panic msg => Panic msg
    end
  | Ok tagVersion => Ok tagVersion
  | Panic msg => Panic msg
  end.

End Version.

(** ** gomod.go *)

(** Code that also writes to the log: its result and the lines logged. *)
Definition logged (A : Type) : Type := (result A * list string)%type.

Definition quiet {A : Type} (r : result A) : logged A := (r, []).

Definition lbind {A B : Type} (c : logged A) (k : A -> logged B) : logged B :=
  match c with
  | (Ok a, out) => let (r, out') := k a in (r, out ++ out')
  | (Err e, out) => (Err e, out)
  | (Panic msg, out) => (Panic msg, out)
  end.

Definition lmapErr {A : Type} (f : error -> error) (c : logged A) : logged A :=
  match c with
  | (Err e, out) => (Err (f e), out)
  | other => other
  end.

(** The line [resolveLocalModule] logs when no version is found. *)
Definition versionWarning (path : string) (err : error) : string :=
  "failed to resolve version of local module " +:+ path
  +:+ ": " +:+ errorText err +:+ String bufio.LF "".

Section Gomod.

Variable w : World.

(** [func (m Module) Hash() (string, error)] *)
Definition Hash (m : Module) : result string :=
  match HashDir w (Dir m) (Coordinates m) with
  | Err err => Err err
  | Ok h1 => Ok h1
  | Panic msg => Panic msg
  end.

(** The loop of [parseModules] over the values the decoder yields. *)
Fixpoint parseModulesLoop (values : list Module) (ending : error)
  (modules : list Module) : result (list Module) :=
  match values with
  | [] => if errors_Is ending ErrEOF then Ok modules else Err ending
  | m :: rest => parseModulesLoop rest ending (modules ++ [m])
  end.

(** [func parseModules(reader io.Reader) ([]Module, error)] *)
Definition parseModules (reader : string) : result (list Module) :=
  let trace := jsonDecoder w reader in
  parseModulesLoop (decoded trace) (ending trace) [].

(** [json.NewDecoder(buf).Decode(&m)], once. *)
Definition decodeModule (buf : string) : result Module :=
  let trace := jsonDecoder w buf in
  match decoded trace with
  | m :: _ => Ok m
  | [] => Err (ending trace)
  end.

(** The [modulePath] of [resolveLocalModule]. *)
Definition localModulePath (mainModulePath : string) (module : Module)
  : string :=
  if filepath.IsAbs (Path module) then Path module
  else filepath.Join [mainModulePath; Path module].

(** The test that leaves a replacement in the module cache alone. *)
Definition inModuleCache (module : Module) : bool :=
  IsGoModule w (Dir module)
  && strings.HasPrefix (Dir module) (GetModuleCacheDir w).

(** [func resolveLocalModule(mainModulePath string, module *Module) error]:
    [Ok] carries the record [module] points to as it is when nil is
    returned. *)
Definition resolveLocalModule (mainModulePath : string) (module : Module)
  : logged Module :=
  if inModuleCache module then quiet (Ok module)
  else
    let modulePath := localModulePath mainModulePath module in
    if negb (IsGoModule w modulePath) then quiet (Err ErrNoGoModule)
    else
      lbind (quiet (GetModule w modulePath)) (fun buf =>
      lbind (quiet (decodeModule buf)) (fun localModule =>
      let module := withPath (Path localModule) module in
      if String.eqb (Version module) "" then
        match GetModuleVersion w (Dir module) with
        | Ok version => quiet (Ok (withVersion version module))
        | Err err =>
          (Ok module, [versionWarning (Path module) err])
        | Panic msg => quiet (Panic msg)
        end
      else quiet (Ok module))).

(** [fmt.Errorf("resolving local module %s failed: %w", ...)] *)
Definition resolvingFailed (replacement : Module) (err : error) : error :=
  ErrWrapped ("resolving local module " +:+ Coordinates replacement
              +:+ " failed: " +:+ errorText err) err.

(** The body of the loop of [GetModules] over the replacements, for
    the record [m] of the slice: [Ok] carries the record as the body
    leaves it. *)
Definition resolveReplacement (path : string) (m : Module) : logged Module :=
  match Replace m with
  | None => quiet (Ok m)
  | Some replacement =>
    if negb (IsGoModule w (Path replacement)) then quiet (Ok m)
    else
      lbind (lmapErr (resolvingFailed replacement)
                     (resolveLocalModule path replacement))
            (fun replacement' =>
      quiet (Ok (withReplace (Some replacement') m)))
  end.

(** The loop of [GetModules] over the replacements. *)
Fixpoint resolveLocalModules (path : string) (modules : list Module)
  : logged (list Module) :=
  match modules with
  | [] => quiet (Ok [])
  | m :: rest =>
    lbind (resolveReplacement path m) (fun m' =>
    lbind (resolveLocalModules path rest) (fun rest' =>
    quiet (Ok (m' :: rest'))))
  end.

(** The first part of [GetModules]: the module records, from the
    listing or from the vendor manifest with the main module put in
    front. *)
Definition listModuleRecords (path : string) : result (list Module) :=
  if negb (IsVendoring w path) then
    rbind (wrapErr "listing modules failed" (ListModules w path)) (fun buf =>
    wrapErr "parsing modules failed" (parseModules buf))
  else
    rbind (wrapErr "listing vendored modules failed"
                   (ListVendoredModules w path)) (fun buf =>
    rbind (wrapErr "parsing vendored modules failed"
                   (parseVendoredModules path buf)) (fun modules =>
    rbind (wrapErr "listing main module failed" (GetModule w path))
          (fun buf =>
    rbind (wrapErr "parsing main module failed" (decodeModule buf))
          (fun mainModule =>
    Ok (mainModule :: modules))))).

(** [func GetModules(path string) ([]Module, error)] *)
Definition GetModules (path : string) : logged (list Module) :=
  if negb (IsGoModule w path) then quiet (Err ErrNoGoModule)
  else
    lbind (quiet (listModuleRecords path)) (fun modules =>
    lbind (resolveLocalModules path modules) (fun modules =>
    lbind (quiet (wrapErr "listing module graph failed"
                          (GetModuleGraph w path))) (fun buf =>
    quiet (wrapErr "parsing module graph failed"
                   (parseModuleGraph buf modules))))).

End Gomod.

(** ** The replacement a coordinate resolves to *)

(** The pointer [findModule] returns for the record at index [i]: its
    replacement when it has one, the record itself otherwise. *)
Definition target (i : nat) (m : Module) : ModRef :=
  match Replace m with
  | Some _ => ReplaceOf i
  | None => SliceElem i
  end.

(** Levels of replacement below a record. *)
Fixpoint replaceDepth (m : Module) : nat :=
  match m with
  | mkModule _ _ _ (Some r) _ _ _ => S (replaceDepth r)
  | mkModule _ _ _ None _ _ _ => 0
  end.

(** [Path [Version] => Path [Version]], as fields. *)
Definition replacementFields (p : string) (v : option string)
  (r : string) (rv : option string) : list string :=
  p :: option_list v ++ "=>" :: r :: option_list rv.

(** A token of the edge stream that is not passed over as blank and has
    not exactly two fields. *)
Definition malformedEdge (text : string) : Prop :=
  strings.TrimSpace text <> ""
  /\ length (strings.Fields (strings.TrimSpace text)) <> 2.

(** A well-formed edge with an endpoint that no module answers to. *)
Definition danglingEdge (modules : list Module) (text : string) : Prop :=
  exists dependant dependency,
    strings.Fields (strings.TrimSpace text) = [dependant; dependency]
    /\ (findModule modules dependant = None
        \/ findModule modules dependency = None).

(** ** Shapes of strings *)

Definition isDigit (c : ascii) : bool :=
  let n := N_of_ascii c in ((48 <=? n) && (n <=? 57))%N.

Definition isHexDigit (c : ascii) : bool :=
  let n := N_of_ascii c in
  isDigit c || ((97 <=? n) && (n <=? 102))%N.

Fixpoint allChars (f : ascii -> bool) (s : string) : bool :=
  match s with
  | EmptyString => true
  | String c r => f c && allChars f r
  end.

(** [check] holds of the [n] integers from [z] on. *)
Fixpoint allFrom (check : Z -> bool) (z : Z) (n : nat) : bool :=
  match n with
  | O => true
  | S k => check z && allFrom check (z + 1)%Z k
  end.

Definition digitChar (d : Z) : ascii :=
  match d with
  | 0 => "0" | 1 => "1" | 2 => "2" | 3 => "3" | 4 => "4"
  | 5 => "5" | 6 => "6" | 7 => "7" | 8 => "8" | _ => "9"
  end%Z%char.

(** The last [width] decimal digits of [x], the first of them first. *)
Fixpoint decimal (width : nat) (x : Z) : string :=
  match width with
  | O => ""
  | S k => decimal k (x / 10) +:+ String (digitChar (x mod 10)) ""
  end.

(** [appendInt x width] is [width] decimal digits. *)
Definition fixedWidth (width : nat) (x : Z) : bool :=
  let s := time.appendInt x width in
  (String.length s =? width)%nat && allChars isDigit s.

(** [appendInt x width] is the digits [decimal width x]. *)
Definition isDecimal (width : nat) (x : Z) : bool :=
  String.eqb (time.appendInt x width) (decimal width x).

(** ** Vocabulary of the statements *)

(** Two records that [findModule] cannot tell apart. *)
Definition sameKey (m m' : Module) : Prop :=
  Coordinates m = Coordinates m' /\ forall i, target i m = target i m'.

(** The record a replacement line of the vendor manifest stands for. *)
Definition vendoredReplacement (path p : string) (v : option string)
  (r : string) (rv : option string) : Module :=
  mkModule "" false p
    (Some (mkModule (filepath.Join [path; "vendor"; p]) false r None
                    (default "" rv) [] true))
    (default "" v) [] false.

(** The record an unreplaced line of the vendor manifest stands for. *)
Definition vendoredModule (path p v : string) : Module :=
  mkModule (filepath.Join [path; "vendor"; p]) false p None v [] true.

Fixpoint noSlash (s : string) : bool :=
  match s with
  | EmptyString => true
  | String c r => negb (Ascii.eqb c filepath.slash) && noSlash r
  end.

(** An element that [Clean] has written: it is not empty and holds no
    separator. *)
Definition written (e : string) : Prop := noSlash e = true /\ e <> "".

(** A path element that [Clean] copies as it is. *)
Definition plainElement (e : string) : bool :=
  noSlash e && negb (String.eqb e "") && negb (String.eqb e ".")
  && negb (String.eqb e "..").

(** [p] is a clean path with the elements [es], rooted or not. *)
Definition cleanPath (p : string) (es : list string) : Prop :=
  es <> [] /\ forallb plainElement es = true
  /\ (p = strings.Join es "/" \/ p = "/" +:+ strings.Join es "/").

(** ** A sample machine *)

(** The working directory is [/work/app]: from there [../lib] and
    [../broken] are module roots.  The project at [/src/app] vendors two
    modules, one of them replaced by the local directory [../lib], which
    is a module root from the project too ([/src/lib]); the project at
    [/src/app2] has a replacement [../broken] that is a module root from
    the working directory but not from that project ([/src/broken] is
    none); and there are three repositories: one whose checkout is
    tagged, one whose checkout is not, and one whose head commit cannot
    be read. *)
Module Sample.

Definition LF : string := String bufio.LF "".

Definition oneOf (s : string) (l : list string) : bool :=
  existsb (String.eqb s) l.

Definition hashOf (bytes : list nat) (size : length bytes = 20) : git.Hash :=
  git.mkHash (map ascii_of_nat bytes)
             (eq_trans (length_map ascii_of_nat bytes) size).

Definition oldHash : git.Hash :=
  hashOf [222; 173; 190; 239; 0; 1; 2; 3; 4; 5;
          6; 7; 8; 9; 10; 11; 12; 13; 14; 15] eq_refl.

Definition headHash : git.Hash :=
  hashOf [1; 35; 69; 103; 137; 171; 205; 239; 16; 50;
          84; 118; 152; 186; 220; 254; 0; 17; 34; 51] eq_refl.

Definition headRef : git.Reference :=
  git.mkReference "refs/heads/main" headHash.

(** Author time 2021-01-01 00:00:00 UTC, shown at +01:00. *)
Definition headCommit : git.Commit :=
  git.mkCommit headHash (time.mkTime 1609459200 3600).

Definition taggedRepo : git.Repository :=
  git.mkRepository
    (Ok headRef)
    (Ok [git.mkReference "refs/tags/v1.9.0" oldHash;
         git.mkReference "refs/tags/latest" headHash;
         git.mkReference "refs/tags/v2.0.0" headHash])
    (fun _ => Ok headCommit).

Definition untaggedRepo : git.Repository :=
  git.mkRepository
    (Ok headRef)
    (Ok [git.mkReference "refs/tags/v1.9.0" oldHash;
         git.mkReference "refs/tags/latest" headHash])
    (fun _ => Ok headCommit).

Definition corruptRepo : git.Repository :=
  git.mkRepository
    (Ok headRef)
    (Ok [])
    (fun _ => Err (ErrExternal "zlib: invalid header")).

Definition appRecord : Module :=
  mkModule "/src/app" true "example.com/app" None "" [] false.

Definition app2Record : Module :=
  mkModule "/src/app2" true "example.com/app2" None "" [] false.

Definition libRecord : Module :=
  mkModule "/src/lib" true "example.com/real-lib" None "" [] false.

(** The module at [../lib] from the working directory. *)
Definition workLibRecord : Module :=
  mkModule "/work/lib" true "example.com/real-lib" None "" [] false.

Definition manifest : string :=
  "# example.com/lib v1.0.0 => ../lib" +:+ LF
  +:+ "## explicit" +:+ LF
  +:+ "example.com/lib" +:+ LF
  +:+ "# example.com/dep v1.2.3" +:+ LF
  +:+ "## explicit" +:+ LF
  +:+ "example.com/dep/pkg" +:+ LF.

Definition manifest2 : string :=
  "# example.com/dep v1.2.3" +:+ LF
  +:+ "# example.com/x v0.3.0 => ../broken" +:+ LF.

Definition graph : string :=
  "example.com/app example.com/lib@v1.0.0" +:+ LF
  +:+ "example.com/app example.com/dep@v1.2.3" +:+ LF
  +:+ LF
  +:+ "example.com/lib@v1.0.0 example.com/dep@v1.2.3" +:+ LF
  +:+ "example.com/dep@v1.2.3 example.com/gone@v0.1.0" +:+ LF.

Definition notFound {A : Type} (what : string) : result A :=
  Err (ErrExternal (what +:+ ": no such file or directory")).

Definition world : World := {|
  IsGoModule p :=
    oneOf p ["/src/app"; "/src/app2"; "/src/lib"; "../lib"; "../broken"];
  IsVendoring p := oneOf p ["/src/app"; "/src/app2"];
  GetModuleCacheDir := "/home/dev/go/pkg/mod";
  ListModules p := notFound p;
  ListVendoredModules p :=
    if String.eqb p "/src/app" then Ok manifest
    else if String.eqb p "/src/app2" then Ok manifest2
    else notFound p;
  GetModule p :=
    if oneOf p ["/src/app"; "/src/app2"; "/src/lib"; "../lib"]
    then Ok ("module " +:+ p)
    else notFound p;
  GetModuleGraph p :=
    if String.eqb p "/src/app" then Ok graph else notFound p;
  jsonDecoder buf :=
    if String.eqb buf "module /src/app" then mkDecodeTrace [appRecord] ErrEOF
    else if String.eqb buf "module /src/app2"
         then mkDecodeTrace [app2Record] ErrEOF
    else if String.eqb buf "module /src/lib"
         then mkDecodeTrace [libRecord] ErrEOF
    else if String.eqb buf "module ../lib"
         then mkDecodeTrace [workLibRecord] ErrEOF
    else mkDecodeTrace [] (ErrExternal "invalid character");
  PlainOpen p :=
    if String.eqb p "/src/tagged" then Ok taggedRepo
    else if String.eqb p "/src/untagged" then Ok untaggedRepo
    else if String.eqb p "/src/corrupt" then Ok corruptRepo
    else Err (ErrExternal "repository does not exist");
  HashDir dir prefix :=
    if String.eqb dir "/src/app/vendor/example.com/dep"
    then Ok "h1:qJYtXnJRWmpe7m/3XlyhrsLrEURqHRM2kxzoxXqyUDs="
    else notFound dir
|}.

(** The replacement of [example.com/lib] as the manifest gives it. *)
Definition libReplacement : Module :=
  mkModule "/src/app/vendor/example.com/lib" false "../lib" None "" [] true.

(** The replacement of [example.com/x] as the second manifest gives it. *)
Definition brokenReplacement : Module :=
  mkModule "/src/app2/vendor/example.com/x" false "../broken" None "" [] true.

(** The module slice of [/src/app] before the graph is read. *)
Definition modules : list Module :=
  [appRecord;
   mkModule "" false "example.com/lib" (Some libReplacement) "v1.0.0" [] false;
   mkModule "/src/app/vendor/example.com/dep" false "example.com/dep" None
            "v1.2.3" [] true].

End Sample.

(** ** Two more repositories *)

(** The sample machine with two more repositories: one whose head
    commit was written in the year 10000, and one whose head commit
    carries the annotated tag [v2.0.0].  The reference of an annotated
    tag holds the hash of the tag object, and the tag object names the
    commit. *)
Module Edge.

Definition tagObjectHash : git.Hash :=
  Sample.hashOf [170; 187; 204; 221; 238; 255; 0; 17; 34; 51;
                 68; 85; 102; 119; 136; 153; 170; 187; 204; 221] eq_refl.

(** The tag objects of the repositories: the commit each one names. *)
Definition tagTarget (h : git.Hash) : option git.Hash :=
  if git.hash_eqb h tagObjectHash then Some Sample.headHash else None.

(** Author time 10000-01-01 00:00:00 UTC. *)
Definition lateCommit : git.Commit :=
  git.mkCommit Sample.headHash (time.mkTime 253402300800 0).

Definition lateRepo : git.Repository :=
  git.mkRepository (Ok Sample.headRef) (Ok []) (fun _ => Ok lateCommit).

Definition annotatedRepo : git.Repository :=
  git.mkRepository
    (Ok Sample.headRef)
    (Ok [git.mkReference "refs/tags/v2.0.0" tagObjectHash])
    (fun _ => Ok Sample.headCommit).

Definition world : World := {|
  IsGoModule := IsGoModule Sample.world;
  IsVendoring := IsVendoring Sample.world;
  GetModuleCacheDir := GetModuleCacheDir Sample.world;
  ListModules := ListModules Sample.world;
  ListVendoredModules := ListVendoredModules Sample.world;
  GetModule := GetModule Sample.world;
  GetModuleGraph := GetModuleGraph Sample.world;
  jsonDecoder := jsonDecoder Sample.world;
  PlainOpen p :=
    if String.eqb p "/src/year10000" then Ok lateRepo
    else if String.eqb p "/src/annotated" then Ok annotatedRepo
    else PlainOpen Sample.world p;
  HashDir := HashDir Sample.world
|}.

End Edge.

(** [n] times the byte [c]. *)
Fixpoint repeatByte (c : ascii) (n : nat) : string :=
  match n with
  | O => ""
  | S k => String c (repeatByte c k)
  end.

Fixpoint noLF (s : string) : bool :=
  match s with
  | EmptyString => true
  | String c r => negb (Ascii.eqb c bufio.LF) && noLF r
  end.

(** * Properties *)

(** ** Lookup by coordinate *)

Lemma findModuleFrom_first (modules : list Module) :
  forall (k i : nat) (m : Module),
    modules !! i = Some m ->
    (forall j m', j < i -> modules !! j = Some m' ->
                  Coordinates m' <> Coordinates m) ->
    findModuleFrom k modules (Coordinates m) = Some (target (k + i) m).
Proof.
  induction modules as [|h rest IH]; intros k i m Hi Hfirst.
  - discriminate.
  - destruct i as [|i]; simpl in *.
    + injection Hi as ->. rewrite String.eqb_refl.
      unfold target. rewrite Nat.add_0_r. destruct (Replace m); reflexivity.
    + destruct (String.eqb (Coordinates m) (Coordinates h)) eqn:E.
      * apply String.eqb_eq in E. exfalso.
        apply (Hfirst 0 h); [lia | reflexivity | congruence].
      * rewrite (IH (S k) i m Hi).
        -- f_equal. f_equal. lia.
        -- intros j m' Hj Hm'. apply (Hfirst (S j) m'); [lia | exact Hm'].
Qed.

Lemma findModule_unique (modules : list Module) (i : nat) (m : Module) :
  NoDup (Coordinates <$> modules) ->
  modules !! i = Some m ->
  findModule modules (Coordinates m) = Some (target i m).
Proof.
  intros Hnd Hi. unfold findModule.
  rewrite (findModuleFrom_first modules 0 i m Hi); [reflexivity|].
  intros j m' Hj Hm' Heq.
  assert (j = i); [|lia].
  eapply (proj1 (NoDup_alt _) Hnd j i (Coordinates m)).
  - rewrite list_lookup_fmap, Hm'. simpl. congruence.
  - rewrite list_lookup_fmap, Hi. reflexivity.
Qed.

Lemma replaceDepth_Replace (m r : Module) :
  Replace m = Some r -> replaceDepth m = S (replaceDepth r).
Proof. destruct m as [d mn p [r'|] v ds vd]; simpl; intros H; [congruence|discriminate]. Qed.

Lemma replacement_is_another_record (m r : Module) :
  Replace m = Some r -> r <> m.
Proof.
  intros H ->. apply replaceDepth_Replace in H. lia.
Qed.

Lemma Fields_cons_nonempty (line a : string) (l : list string) :
  strings.Fields line = a :: l -> String.eqb line "" = false.
Proof. destruct line; [discriminate | reflexivity]. Qed.

Lemma parseModuleGraphLine_blank (modules : list Module) (text : string) :
  strings.TrimSpace text = "" -> parseModuleGraphLine modules text = Ok modules.
Proof. intros H. unfold parseModuleGraphLine. rewrite H. reflexivity. Qed.

Lemma parseModuleGraphLine_edge (modules : list Module) (text a b : string) :
  strings.Fields (strings.TrimSpace text) = [a; b] ->
  parseModuleGraphLine modules text =
  match findModule modules a with
  | None => Ok modules
  | Some dependant =>
    match findModule modules b with
    | None => Ok modules
    | Some dependency => Ok (appendDependency modules dependant dependency)
    end
  end.
Proof.
  intros H. unfold parseModuleGraphLine.
  rewrite (Fields_cons_nonempty _ _ _ H), H. reflexivity.
Qed.

Lemma parseModuleGraphLine_malformed (modules : list Module) (text : string) :
  malformedEdge text ->
  parseModuleGraphLine modules text =
  Err (fieldCountError (strings.Fields (strings.TrimSpace text))
                       (strings.TrimSpace text)).
Proof.
  intros [Hne Hlen]. unfold parseModuleGraphLine.
  destruct (String.eqb (strings.TrimSpace text) "") eqn:E.
  - apply String.eqb_eq in E. contradiction.
  - destruct (len (strings.Fields (strings.TrimSpace text)) =? 2)%Z eqn:E2.
    + apply Z.eqb_eq in E2. unfold len in E2. lia.
    + reflexivity.
Qed.

Lemma deref_appendDependency (modules : list Module) (d e : ModRef) :
  deref (appendDependency modules d e) d = addDependency e <$> deref modules d.
Proof.
  destruct d as [i|i]; simpl.
  - rewrite list_lookup_alter_eq. reflexivity.
  - rewrite list_lookup_alter_eq. destruct (modules !! i) as [m|]; simpl; [|reflexivity].
    destruct (Replace m); reflexivity.
Qed.

Lemma appendDependency_other_index (modules : list Module) (i j : nat)
  (d e : ModRef) :
  d = SliceElem i \/ d = ReplaceOf i -> i <> j ->
  appendDependency modules d e !! j = modules !! j.
Proof.
  intros [-> | ->] Hne; simpl; apply list_lookup_alter_ne; exact Hne.
Qed.

Lemma appendDependency_to_replacement (modules : list Module) (i : nat)
  (e : ModRef) :
  appendDependency modules (ReplaceOf i) e !! i
  = (fun m => withReplace (addDependency e <$> Replace m) m) <$> modules !! i.
Proof. simpl. apply list_lookup_alter_eq. Qed.

(** C1. When coordinates are unique keys of the module slice, looking a
    record up by its own coordinate ([Path], or [Path@Version]) returns
    the pointer stored in its [Replace] field when it has one (the
    replacement, never the record itself) and the record itself
    otherwise; the two endpoints of an edge line are resolved by this
    same lookup, so the edge is appended to the replacement's
    [Dependencies] and the replaced record's own list stays as it was. *)
Theorem findModule_follows_replacement
  (modules : list Module) (i : nat) (m : Module) :
  NoDup (Coordinates <$> modules) ->
  modules !! i = Some m ->
  (forall r, Replace m = Some r ->
     findModule modules (Coordinates m) = Some (ReplaceOf i)
     /\ deref modules (ReplaceOf i) = Some r
     /\ r <> m)
  /\ (Replace m = None ->
      findModule modules (Coordinates m) = Some (SliceElem i)
      /\ deref modules (SliceElem i) = Some m)
  /\ (forall text j m',
        modules !! j = Some m' ->
        strings.Fields (strings.TrimSpace text)
        = [Coordinates m; Coordinates m'] ->
        exists modules',
          parseModuleGraphLine modules text = Ok modules'
          /\ modules' = appendDependency modules (target i m) (target j m')
          /\ Dependencies <$> deref modules' (target i m)
             = (fun x => Dependencies x ++ [target j m'])
                 <$> deref modules (target i m)
          /\ (forall r, Replace m = Some r ->
                Dependencies <$> modules' !! i = Some (Dependencies m))).
Proof.
  intros Hnd Hi.
  pose proof (findModule_unique modules i m Hnd Hi) as Hfind.
  split; [|split].
  - intros r Hr. unfold target in Hfind. rewrite Hr in Hfind.
    split; [exact Hfind|]. split.
    + simpl. rewrite Hi. exact Hr.
    + exact (replacement_is_another_record m r Hr).
  - intros Hr. unfold target in Hfind. rewrite Hr in Hfind.
    split; [exact Hfind | exact Hi].
  - intros text j m' Hj Hfields.
    pose proof (findModule_unique modules j m' Hnd Hj) as Hfind'.
    eexists. split; [|split; [reflexivity|split]].
    + rewrite (parseModuleGraphLine_edge modules text _ _ Hfields).
      rewrite Hfind, Hfind'. reflexivity.
    + rewrite deref_appendDependency.
      destruct (deref modules (target i m)); reflexivity.
    + intros r Hr. unfold target at 1. rewrite Hr.
      rewrite appendDependency_to_replacement, Hi. reflexivity.
Qed.

(** ** The edge stream *)

Lemma sameKey_refl (m : Module) : sameKey m m.
Proof. split; reflexivity. Qed.

Lemma sameKey_trans (a b c : Module) : sameKey a b -> sameKey b c -> sameKey a c.
Proof.
  intros [H1 H2] [H3 H4]. split; [congruence|].
  intros i. rewrite H2. apply H4.
Qed.

Lemma Forall2_sameKey_refl (ms : list Module) : Forall2 sameKey ms ms.
Proof. induction ms; constructor; auto using sameKey_refl. Qed.

Lemma Forall2_sameKey_trans (a b c : list Module) :
  Forall2 sameKey a b -> Forall2 sameKey b c -> Forall2 sameKey a c.
Proof.
  intros H. revert c. induction H; intros c Hc; inversion Hc; subst;
    constructor; eauto using sameKey_trans.
Qed.

Lemma findModuleFrom_sameKey (ms ms' : list Module) :
  Forall2 sameKey ms ms' ->
  forall k c, findModuleFrom k ms c = findModuleFrom k ms' c.
Proof.
  induction 1 as [|m m' ms ms' [Hc Ht] _ IH]; intros k c; simpl; [reflexivity|].
  rewrite <- Hc. destruct (String.eqb c (Coordinates m)).
  - specialize (Ht k). unfold target in Ht.
    destruct (Replace m), (Replace m'); congruence.
  - apply IH.
Qed.

Lemma findModule_sameKey (ms ms' : list Module) (c : string) :
  Forall2 sameKey ms ms' -> findModule ms c = findModule ms' c.
Proof. intros H. apply findModuleFrom_sameKey, H. Qed.

Lemma Forall2_alter_sameKey (f : Module -> Module) (ms : list Module) (i : nat) :
  (forall m, sameKey m (f m)) -> Forall2 sameKey ms (alter f i ms).
Proof.
  intros Hf. revert i. induction ms as [|m ms IH]; intros [|i]; simpl.
  - constructor.
  - constructor.
  - constructor; [apply Hf | apply Forall2_sameKey_refl].
  - constructor; [apply sameKey_refl | apply IH].
Qed.

Lemma appendDependency_sameKey (ms : list Module) (d e : ModRef) :
  Forall2 sameKey ms (appendDependency ms d e).
Proof.
  destruct d as [i|i]; simpl; apply Forall2_alter_sameKey; intros m.
  - split; reflexivity.
  - split; [reflexivity|]. intros k. unfold target. simpl.
    destruct (Replace m); reflexivity.
Qed.

Lemma parseModuleGraphLine_well_formed (ms : list Module) (text : string) :
  ~ malformedEdge text ->
  exists ms', parseModuleGraphLine ms text = Ok ms' /\ Forall2 sameKey ms ms'.
Proof.
  intros Hwf. unfold parseModuleGraphLine.
  destruct (String.eqb (strings.TrimSpace text) "") eqn:E.
  - eauto using Forall2_sameKey_refl.
  - destruct (strings.Fields (strings.TrimSpace text)) as [|a [|b [|c l]]] eqn:F.
    + exfalso. apply Hwf. split; [|rewrite F; simpl; lia].
      intros H. rewrite H in E. discriminate.
    + exfalso. apply Hwf. split; [|rewrite F; simpl; lia].
      intros H. rewrite H in E. discriminate.
    + simpl. destruct (findModule ms a); [|eauto using Forall2_sameKey_refl].
      destruct (findModule ms b); eauto using Forall2_sameKey_refl, appendDependency_sameKey.
    + exfalso. apply Hwf. split; [|rewrite F; simpl; lia].
      intros H. rewrite H in E. discriminate.
Qed.

Lemma malformedEdge_dec (text : string) : malformedEdge text \/ ~ malformedEdge text.
Proof.
  unfold malformedEdge.
  destruct (decide (strings.TrimSpace text = "")) as [H|H];
    destruct (decide (length (strings.Fields (strings.TrimSpace text)) = 2)) as [H'|H'];
    tauto.
Qed.

Lemma parseModuleGraphLines_app (l1 l2 : list string) :
  forall ms,
    parseModuleGraphLines (l1 ++ l2) ms
    = rbind (parseModuleGraphLines l1 ms) (parseModuleGraphLines l2).
Proof.
  induction l1 as [|t l1 IH]; intros ms; simpl; [reflexivity|].
  destruct (parseModuleGraphLine ms t); simpl; auto.
Qed.

Lemma parseModuleGraphLines_sameKey (lines : list string) :
  forall ms ms', parseModuleGraphLines lines ms = Ok ms' -> Forall2 sameKey ms ms'.
Proof.
  induction lines as [|t lines IH]; intros ms ms'; simpl.
  - intros [= ->]. apply Forall2_sameKey_refl.
  - destruct (malformedEdge_dec t) as [Hbad|Hok].
    + rewrite (parseModuleGraphLine_malformed ms t Hbad). discriminate.
    + destruct (parseModuleGraphLine_well_formed ms t Hok) as (ms1 & -> & Hk).
      simpl. intros H. eapply Forall2_sameKey_trans; eauto.
Qed.

Lemma parseModuleGraphLines_malformed (lines : list string) :
  forall ms,
    Exists malformedEdge lines ->
    exists bad,
      In bad lines /\ malformedEdge bad
      /\ parseModuleGraphLines lines ms
         = Err (fieldCountError (strings.Fields (strings.TrimSpace bad))
                                (strings.TrimSpace bad)).
Proof.
  induction lines as [|t lines IH]; intros ms Hex.
  - inversion Hex.
  - destruct (malformedEdge_dec t) as [Hbad|Hok].
    + exists t. split; [left; reflexivity|]. split; [exact Hbad|].
      simpl. rewrite (parseModuleGraphLine_malformed ms t Hbad). reflexivity.
    + assert (Exists malformedEdge lines) as Hrest
          by (inversion Hex; subst; [contradiction | assumption]).
      destruct (parseModuleGraphLine_well_formed ms t Hok) as (ms1 & Hstep & _).
      destruct (IH ms1 Hrest) as (bad & Hin & Hb & Hres).
      exists bad. split; [right; exact Hin|]. split; [exact Hb|].
      simpl. rewrite Hstep. exact Hres.
Qed.

Lemma parseModuleGraphLines_first_malformed (before after : list string)
  (text : string) (ms : list Module) :
  Forall (fun t => ~ malformedEdge t) before ->
  malformedEdge text ->
  parseModuleGraphLines (before ++ text :: after) ms
  = Err (fieldCountError (strings.Fields (strings.TrimSpace text))
                         (strings.TrimSpace text)).
Proof.
  intros Hbefore Hbad. revert ms.
  induction Hbefore as [|t before Hok _ IH]; intros ms; simpl.
  - rewrite (parseModuleGraphLine_malformed ms text Hbad). reflexivity.
  - destruct (parseModuleGraphLine_well_formed ms t Hok) as (ms1 & -> & _).
    simpl. apply IH.
Qed.

Lemma danglingEdge_sameKey (ms ms' : list Module) (text : string) :
  Forall2 sameKey ms ms' -> danglingEdge ms text -> danglingEdge ms' text.
Proof.
  intros Hk (a & b & Hf & Hnone). exists a, b. split; [exact Hf|].
  rewrite <- !(findModule_sameKey ms ms' _ Hk). exact Hnone.
Qed.

Lemma parseModuleGraphLine_dangling (ms : list Module) (text : string) :
  danglingEdge ms text -> parseModuleGraphLine ms text = Ok ms.
Proof.
  intros (a & b & Hf & Hnone).
  rewrite (parseModuleGraphLine_edge ms text a b Hf).
  destruct Hnone as [-> | Hb]; [reflexivity|].
  rewrite Hb. destruct (findModule ms a); reflexivity.
Qed.

Lemma parseModuleGraphLines_skip (before after : list string) (text : string)
  (ms : list Module) :
  (strings.TrimSpace text = "" \/ danglingEdge ms text) ->
  parseModuleGraphLines (before ++ text :: after) ms
  = parseModuleGraphLines (before ++ after) ms.
Proof.
  intros Hskip. rewrite !parseModuleGraphLines_app.
  destruct (parseModuleGraphLines before ms) as [ms1| |] eqn:E; simpl; try reflexivity.
  assert (parseModuleGraphLine ms1 text = Ok ms1) as ->; [|reflexivity].
  destruct Hskip as [Hblank|Hd].
  - apply parseModuleGraphLine_blank, Hblank.
  - apply parseModuleGraphLine_dangling.
    eapply danglingEdge_sameKey; [|exact Hd].
    eapply parseModuleGraphLines_sameKey, E.
Qed.

Lemma parseModuleGraphLines_all_skipped (lines : list string) (ms : list Module) :
  Forall (fun t => strings.TrimSpace t = "" \/ danglingEdge ms t) lines ->
  parseModuleGraphLines lines ms = Ok ms.
Proof.
  induction 1 as [|t lines Ht _ IH]; simpl; [reflexivity|].
  assert (parseModuleGraphLine ms t = Ok ms) as ->.
  { destruct Ht; [apply parseModuleGraphLine_blank | apply parseModuleGraphLine_dangling]; assumption. }
  exact IH.
Qed.

(** C4. A line of the edge stream that is not blank after trimming and
    has not exactly two fields makes [parseModuleGraph] return the error
    [expected two fields per line, but got N: line]: the loop returns it
    at the first such line it reads, and skips or shortens none.  Blank
    lines are passed over and change nothing. *)
Theorem malformed_edge_line_is_fatal
  (reader : string) (modules : list Module) (text : string) :
  In text (bufio.scanLines reader) ->
  malformedEdge text ->
  parseModuleGraphLine modules text
  = Err (fieldCountError (strings.Fields (strings.TrimSpace text))
                         (strings.TrimSpace text))
  /\ (exists bad,
        In bad (bufio.scanLines reader) /\ malformedEdge bad
        /\ parseModuleGraph reader modules
           = Err (fieldCountError (strings.Fields (strings.TrimSpace bad))
                                  (strings.TrimSpace bad)))
  /\ (forall before after,
        bufio.scanLines reader = before ++ text :: after ->
        Forall (fun t => ~ malformedEdge t) before ->
        parseModuleGraph reader modules
        = Err (fieldCountError (strings.Fields (strings.TrimSpace text))
                               (strings.TrimSpace text)))
  /\ (forall blank before after,
        strings.TrimSpace blank = "" ->
        parseModuleGraphLine modules blank = Ok modules
        /\ parseModuleGraphLines (before ++ blank :: after) modules
           = parseModuleGraphLines (before ++ after) modules).
Proof.
  intros Hin Hbad. split; [|split; [|split]].
  - apply parseModuleGraphLine_malformed, Hbad.
  - apply parseModuleGraphLines_malformed.
    apply Exists_exists. exists text. split; [|exact Hbad].
    apply list_elem_of_In, Hin.
  - intros before after Hscan Hbefore. unfold parseModuleGraph.
    rewrite Hscan. apply parseModuleGraphLines_first_malformed; assumption.
  - intros blank before after Hblank. split.
    + apply parseModuleGraphLine_blank, Hblank.
    + apply parseModuleGraphLines_skip. left. exact Hblank.
Qed.

(** C5. A two-field edge line with an endpoint that [findModule] does
    not find returns no error and leaves the module slice as it is: the
    graph read with the line is the graph read without it, and a stream
    of such lines and blank ones returns the slice unchanged. *)
Theorem dangling_edge_is_dropped (modules : list Module) (text : string) :
  danglingEdge modules text ->
  parseModuleGraphLine modules text = Ok modules
  /\ (forall reader reader' before after,
        bufio.scanLines reader = before ++ text :: after ->
        bufio.scanLines reader' = before ++ after ->
        parseModuleGraph reader modules = parseModuleGraph reader' modules)
  /\ (forall reader,
        Forall (fun t => strings.TrimSpace t = "" \/ danglingEdge modules t)
               (bufio.scanLines reader) ->
        parseModuleGraph reader modules = Ok modules).
Proof.
  intros Hd. split; [|split].
  - apply parseModuleGraphLine_dangling, Hd.
  - intros reader reader' before after H H'. unfold parseModuleGraph.
    rewrite H, H'. apply parseModuleGraphLines_skip. right. exact Hd.
  - intros reader Hall. apply parseModuleGraphLines_all_skipped, Hall.
Qed.

(** ** Clean paths *)

Lemma append_cons (x : ascii) (a b : string) :
  String x a +:+ b = String x (a +:+ b).
Proof. reflexivity. Qed.

Lemma append_assoc (a b c : string) : (a +:+ b) +:+ c = a +:+ b +:+ c.
Proof.
  induction a as [|x a IH]; [reflexivity|].
  rewrite !append_cons, IH. reflexivity.
Qed.

Lemma append_empty_r (a : string) : a +:+ "" = a.
Proof.
  induction a as [|x a IH]; [reflexivity|].
  rewrite append_cons, IH. reflexivity.
Qed.

Lemma splitFrom_noSlash (e : string) :
  noSlash e = true ->
  forall cur s, filepath.splitFrom cur (e +:+ s) = filepath.splitFrom (cur +:+ e) s.
Proof.
  induction e as [|c e IH]; intros H cur s; simpl.
  - rewrite append_empty_r. reflexivity.
  - simpl in H. apply andb_true_iff in H as [Hc He].
    apply negb_true_iff in Hc. rewrite Hc.
    rewrite (IH He). rewrite append_assoc. reflexivity.
Qed.

Lemma plainElement_noSlash (e : string) : plainElement e = true -> noSlash e = true.
Proof.
  unfold plainElement. intros H.
  repeat (apply andb_true_iff in H as [H _]). exact H.
Qed.

Lemma elements_Join (es : list string) :
  es <> [] -> forallb plainElement es = true ->
  filepath.elements (strings.Join es "/") = es.
Proof.
  unfold filepath.elements.
  induction es as [|e es IH]; intros Hne Hall; [contradiction|].
  simpl in Hall. apply andb_true_iff in Hall as [He Hes].
  apply plainElement_noSlash in He.
  destruct es as [|e2 es].
  - simpl. rewrite <- (append_empty_r e) at 1.
    rewrite (splitFrom_noSlash e He). reflexivity.
  - change (strings.Join (e :: e2 :: es) "/")
      with (e +:+ "/" +:+ strings.Join (e2 :: es) "/").
    rewrite (splitFrom_noSlash e He). simpl filepath.splitFrom at 1.
    f_equal. apply IH; [discriminate | exact Hes].
Qed.

Lemma cleanStep_plain (rooted : bool) (out : list string) (e : string) :
  plainElement e = true -> filepath.cleanStep rooted out e = e :: out.
Proof.
  unfold plainElement, filepath.cleanStep. intros H.
  apply andb_true_iff in H as [H H3]. apply andb_true_iff in H as [H H2].
  apply andb_true_iff in H as [_ H1].
  apply negb_true_iff in H1, H2, H3. rewrite H1, H2, H3. reflexivity.
Qed.

Lemma fold_cleanStep_plain (rooted : bool) (es : list string) :
  forallb plainElement es = true ->
  forall out, fold_left (filepath.cleanStep rooted) es out = rev es ++ out.
Proof.
  induction es as [|e es IH]; intros Hall out; simpl; [reflexivity|].
  simpl in Hall. apply andb_true_iff in Hall as [He Hes].
  rewrite (cleanStep_plain _ _ _ He), (IH Hes).
  rewrite <- app_assoc. reflexivity.
Qed.

Lemma plainElement_head (e : string) :
  plainElement e = true ->
  exists c r, e = String c r /\ Ascii.eqb c filepath.slash = false.
Proof.
  unfold plainElement. destruct e as [|c r]; simpl; [discriminate|].
  intros H. repeat (apply andb_true_iff in H as [H _]).
  apply negb_true_iff in H. eauto.
Qed.

Lemma Join_plain_head (es : list string) :
  es <> [] -> forallb plainElement es = true ->
  exists c r, strings.Join es "/" = String c r
              /\ Ascii.eqb c filepath.slash = false.
Proof.
  destruct es as [|e es]; [contradiction|]. intros _ Hall.
  simpl in Hall. apply andb_true_iff in Hall as [He _].
  destruct (plainElement_head e He) as (c & r & -> & Hc).
  destruct es; simpl; eauto.
Qed.

Lemma IsAbs_cons (c : ascii) (r : string) :
  filepath.IsAbs (String c r) = Ascii.eqb c filepath.slash.
Proof.
  unfold filepath.IsAbs, strings.HasPrefix.
  change (String.prefix "/" (String c r))
    with (if ascii_dec "/" c then String.prefix "" r else false).
  destruct (ascii_dec "/" c) as [<-|Hne].
  - destruct r; reflexivity.
  - symmetry. apply Ascii.eqb_neq. unfold filepath.slash. congruence.
Qed.

Lemma Clean_relative (es : list string) :
  es <> [] -> forallb plainElement es = true ->
  filepath.Clean (strings.Join es "/") = strings.Join es "/".
Proof.
  intros Hne Hall.
  destruct (Join_plain_head es Hne Hall) as (c & r & Hj & Hc).
  unfold filepath.Clean.
  rewrite (elements_Join es Hne Hall).
  rewrite (fold_cleanStep_plain _ es Hall), app_nil_r, rev_involutive.
  rewrite Hj. simpl String.eqb.
  rewrite IsAbs_cons, Hc, <- Hj.
  destruct (String.eqb (strings.Join es "/") "") eqn:E; [|reflexivity].
  apply String.eqb_eq in E. rewrite E in Hj. discriminate.
Qed.

Lemma Clean_rooted (es : list string) :
  es <> [] -> forallb plainElement es = true ->
  filepath.Clean ("/" +:+ strings.Join es "/") = "/" +:+ strings.Join es "/".
Proof.
  intros Hne Hall. unfold filepath.Clean.
  change (filepath.elements ("/" +:+ strings.Join es "/"))
    with ("" :: filepath.elements (strings.Join es "/")).
  rewrite (elements_Join es Hne Hall). simpl fold_left.
  rewrite (fold_cleanStep_plain _ es Hall), app_nil_r, rev_involutive.
  change ("/" +:+ strings.Join es "/") with (String "/" (strings.Join es "/")).
  rewrite IsAbs_cons. reflexivity.
Qed.

Lemma Clean_cleanPath (p : string) (es : list string) :
  cleanPath p es -> filepath.Clean p = p.
Proof.
  intros (Hne & Hall & [-> | ->]); [apply Clean_relative | apply Clean_rooted];
    assumption.
Qed.

Lemma Join_app (a b : list string) (sep : string) :
  a <> [] -> b <> [] ->
  strings.Join (a ++ b) sep = strings.Join a sep +:+ sep +:+ strings.Join b sep.
Proof.
  induction a as [|x a IH]; intros Ha Hb; [contradiction|].
  destruct a as [|y a].
  - destruct b; [contradiction | reflexivity].
  - change (strings.Join ((x :: y :: a) ++ b) sep)
      with (x +:+ sep +:+ strings.Join ((y :: a) ++ b) sep).
    rewrite IH; [|discriminate|exact Hb].
    change (strings.Join (x :: y :: a) sep)
      with (x +:+ sep +:+ strings.Join (y :: a) sep).
    rewrite !append_assoc. reflexivity.
Qed.

Lemma cleanPath_nonempty (p : string) (es : list string) :
  cleanPath p es -> String.eqb p "" = false.
Proof.
  intros (Hne & Hall & [-> | ->]); [|reflexivity].
  destruct (Join_plain_head es Hne Hall) as (c & r & -> & _). reflexivity.
Qed.

(** Joining clean paths is writing them one after the other. *)
Lemma Join_vendor_clean (root p : string) (rs ps : list string) :
  cleanPath root rs -> cleanPath p ps -> p = strings.Join ps "/" ->
  filepath.Join [root; "vendor"; p] = root +:+ "/vendor/" +:+ p.
Proof.
  intros Hroot Hp Hrel.
  unfold filepath.Join. rewrite (cleanPath_nonempty root rs Hroot).
  destruct Hroot as (Hrne & Hrall & Hr). destruct Hp as (Hpne & Hpall & _).
  assert (forallb plainElement (rs ++ "vendor" :: ps) = true) as Hall.
  { rewrite forallb_app. simpl. rewrite Hrall, Hpall. reflexivity. }
  assert (rs ++ "vendor" :: ps <> []) as Hne by (destruct rs; discriminate).
  assert (strings.Join (rs ++ "vendor" :: ps) "/"
          = strings.Join rs "/" +:+ "/vendor/" +:+ p) as Hjoin.
  { rewrite Join_app; [|exact Hrne|discriminate].
    change ("vendor" :: ps) with (["vendor"] ++ ps).
    rewrite Join_app; [|discriminate|exact Hpne]. rewrite Hrel. reflexivity. }
  change (strings.Join [root; "vendor"; p] "/")
    with (root +:+ "/" +:+ "vendor" +:+ "/" +:+ p).
  change (root +:+ "/" +:+ "vendor" +:+ "/" +:+ p)
    with (root +:+ "/vendor/" +:+ p).
  destruct Hr as [-> | ->].
  - rewrite <- Hjoin. apply Clean_relative; assumption.
  - rewrite append_assoc, <- Hjoin. apply Clean_rooted; assumption.
Qed.

(** ** The vendor manifest *)

Lemma eqb_false_of_ne (a b : string) : a <> b -> String.eqb a b = false.
Proof. intros H. apply String.eqb_neq, H. Qed.

Lemma parseVendoredLine_replacement (path text p r : string)
  (v rv : option string) :
  strings.HasPrefix (strings.TrimSpace text) "# " = true ->
  strings.Fields (strings.TrimPrefix (strings.TrimSpace text) "# ")
  = replacementFields p v r rv ->
  p <> "=>" -> v <> Some "=>" ->
  parseVendoredLine path text = Ok (Some (vendoredReplacement path p v r rv)).
Proof.
  intros Hpre Hf Hp Hv. unfold parseVendoredLine.
  rewrite Hpre, Hf. simpl negb. cbv iota.
  unfold replacementFields, util.StringSliceIndex.
  destruct v as [v|]; simpl option_list; simpl app.
  - assert (v <> "=>") as Hv' by congruence.
    simpl util.indexFrom.
    rewrite (eqb_false_of_ne _ _ Hp), (eqb_false_of_ne _ _ Hv').
    destruct rv; reflexivity.
  - simpl util.indexFrom.
    rewrite (eqb_false_of_ne _ _ Hp).
    destruct rv; reflexivity.
Qed.

Lemma parseVendoredLine_unreplaced (path text p v : string) :
  strings.HasPrefix (strings.TrimSpace text) "# " = true ->
  strings.Fields (strings.TrimPrefix (strings.TrimSpace text) "# ") = [p; v] ->
  p <> "=>" -> v <> "=>" ->
  parseVendoredLine path text = Ok (Some (vendoredModule path p v)).
Proof.
  intros Hpre Hf Hp Hv. unfold parseVendoredLine.
  rewrite Hpre, Hf. simpl negb. cbv iota.
  unfold util.StringSliceIndex. simpl util.indexFrom.
  rewrite (eqb_false_of_ne _ _ Hp), (eqb_false_of_ne _ _ Hv).
  reflexivity.
Qed.

Lemma parseVendoredLines_keeps (path : string) (lines : list string) :
  forall acc modules,
    parseVendoredLines path lines acc = Ok modules ->
    (forall m, In m acc -> In m modules)
    /\ (forall text m, In text lines ->
                       parseVendoredLine path text = Ok (Some m) ->
                       In m modules).
Proof.
  induction lines as [|t lines IH]; intros acc modules; simpl.
  - intros [= ->]. split; [auto | intros ? ? []].
  - destruct (parseVendoredLine path t) as [[m0|]| |] eqn:E; try discriminate.
    + intros H. destruct (IH _ _ H) as [Hacc Hl]. split.
      * intros m Hm. apply Hacc, in_or_app. left. exact Hm.
      * intros text m [<- | Hin] Hm.
        -- rewrite E in Hm. injection Hm as <-.
           apply Hacc, in_or_app. right. left. reflexivity.
        -- eapply Hl; eauto.
    + intros H. destruct (IH _ _ H) as [Hacc Hl]. split; [exact Hacc|].
      intros text m [<- | Hin] Hm.
      * rewrite E in Hm. discriminate.
      * eapply Hl; eauto.
Qed.

Lemma parseVendoredLines_snoc (path : string) (lines : list string) (text : string) :
  forall acc modules,
    parseVendoredLines path lines acc = Ok modules ->
    parseVendoredLines path (lines ++ [text]) acc
    = match parseVendoredLine path text with
      | Ok None => Ok modules
      | Ok (Some m) => Ok (modules ++ [m])
      | Err e => Err e
      | Panic msg => Panic msg
      end.
Proof.
  induction lines as [|t lines IH]; intros acc modules; simpl.
  - intros [= ->]. destruct (parseVendoredLine path text) as [[m|]| |]; reflexivity.
  - destruct (parseVendoredLine path t) as [[m0|]| |]; try discriminate; apply IH.
Qed.

(** C2. A replacement line [Path [Version] => Path [Version]] of the
    vendor manifest yields a record whose replacement has the directory
    [filepath.Join(root, "vendor", original Path)], the path on the left
    of the arrow: [<root>/vendor/<original Path>] when both are clean
    paths, whatever the replacement's own path is.  An unreplaced line
    [Path Version] yields a record with the directory
    [<root>/vendor/<Path>]. *)
Theorem vendored_directory_from_original_path
  (path text : string) :
  strings.HasPrefix (strings.TrimSpace text) "# " = true ->
  (forall p v r rv,
     strings.Fields (strings.TrimPrefix (strings.TrimSpace text) "# ")
     = replacementFields p v r rv ->
     p <> "=>" -> v <> Some "=>" ->
     parseVendoredLine path text
     = Ok (Some (vendoredReplacement path p v r rv))
     /\ (Dir <$> Replace (vendoredReplacement path p v r rv))
        = Some (filepath.Join [path; "vendor"; p])
     /\ (forall roots elems,
           cleanPath path roots -> cleanPath p elems ->
           p = strings.Join elems "/" ->
           (Dir <$> Replace (vendoredReplacement path p v r rv))
           = Some (path +:+ "/vendor/" +:+ p))
     /\ forall reader modules,
          In text (bufio.scanLines reader) ->
          parseVendoredModules path reader = Ok modules ->
          In (vendoredReplacement path p v r rv) modules)
  /\ (forall p v,
        strings.Fields (strings.TrimPrefix (strings.TrimSpace text) "# ")
        = [p; v] ->
        p <> "=>" -> v <> "=>" ->
        parseVendoredLine path text = Ok (Some (vendoredModule path p v))
        /\ Dir (vendoredModule path p v) = filepath.Join [path; "vendor"; p]
        /\ (forall roots elems,
              cleanPath path roots -> cleanPath p elems ->
              p = strings.Join elems "/" ->
              Dir (vendoredModule path p v) = path +:+ "/vendor/" +:+ p)
        /\ forall reader modules,
             In text (bufio.scanLines reader) ->
             parseVendoredModules path reader = Ok modules ->
             In (vendoredModule path p v) modules).
Proof.
  intros Hpre. split.
  - intros p v r rv Hf Hp Hv.
    pose proof (parseVendoredLine_replacement path text p r v rv Hpre Hf Hp Hv) as Hl.
    split; [exact Hl|]. split; [reflexivity|]. split.
    { intros roots elems Hroot Helems Hrel.
      change (Some (filepath.Join [path; "vendor"; p])
              = Some (path +:+ "/vendor/" +:+ p)).
      f_equal. exact (Join_vendor_clean path p roots elems Hroot Helems Hrel). }
    intros reader modules Hin Hparse.
    eapply (parseVendoredLines_keeps path _ [] modules Hparse); eauto.
  - intros p v Hf Hp Hv.
    pose proof (parseVendoredLine_unreplaced path text p v Hpre Hf Hp Hv) as Hl.
    split; [exact Hl|]. split; [reflexivity|]. split.
    { intros roots elems Hroot Helems Hrel.
      exact (Join_vendor_clean path p roots elems Hroot Helems Hrel). }
    intros reader modules Hin Hparse.
    eapply (parseVendoredLines_keeps path _ [] modules Hparse); eauto.
Qed.

(** ** Versions *)

Lemma length_append (a b : string) :
  String.length (a +:+ b) = String.length a + String.length b.
Proof.
  induction a as [|x a IH]; [reflexivity|].
  rewrite append_cons. simpl. rewrite IH. reflexivity.
Qed.

Lemma allChars_append (f : ascii -> bool) (a b : string) :
  allChars f (a +:+ b) = allChars f a && allChars f b.
Proof.
  induction a as [|x a IH]; [reflexivity|].
  rewrite append_cons. simpl. rewrite IH. apply andb_assoc.
Qed.

Lemma allFrom_spec (check : Z -> bool) (n : nat) :
  forall z, allFrom check z n = true ->
            forall x, (z <= x < z + Z.of_nat n)%Z -> check x = true.
Proof.
  induction n as [|n IH]; intros z H x Hx; [lia|].
  simpl in H. apply andb_true_iff in H as [Hz Hrest].
  destruct (decide (x = z)) as [->|Hne]; [exact Hz|].
  apply (IH (z + 1)%Z Hrest). lia.
Qed.

Lemma appendInt_two_digits (x : Z) :
  (0 <= x < 100)%Z -> fixedWidth 2 x = true.
Proof.
  intros H. apply (allFrom_spec (fixedWidth 2) 100 0%Z); [vm_compute; reflexivity | lia].
Qed.

Lemma appendInt_four_digits (x : Z) :
  (0 <= x <= 9999)%Z -> fixedWidth 4 x = true.
Proof.
  intros H.
  apply (allFrom_spec (fixedWidth 4) (Z.to_nat 10000) 0%Z);
    [vm_compute; reflexivity | lia].
Qed.

Lemma fixedWidth_spec (width : nat) (x : Z) :
  fixedWidth width x = true ->
  String.length (time.appendInt x width) = width
  /\ allChars isDigit (time.appendInt x width) = true.
Proof.
  unfold fixedWidth. intros H. apply andb_true_iff in H as [Hl Hd].
  apply Nat.eqb_eq in Hl. split; assumption.
Qed.

Section TimeRanges.
Local Open Scope Z_scope.

Lemma dayOfEra_range (days : Z) : 0 <= time.dayOfEra days < 146097.
Proof. unfold time.dayOfEra. apply Z.mod_pos_bound. lia. Qed.

Lemma dayOfYear_range (doe : Z) :
  0 <= doe < 146097 -> 0 <= time.dayOfYear doe <= 365.
Proof.
  intros H. unfold time.dayOfYear, time.yearOfEra.
  Z.to_euclidean_division_equations. lia.
Qed.

Lemma monthIndex_range (doe : Z) :
  0 <= time.dayOfYear doe <= 365 ->
  0 <= time.monthIndex doe <= 11
  /\ 1 <= time.dayOfYear doe - (153 * time.monthIndex doe + 2) / 5 + 1 <= 31.
Proof.
  unfold time.monthIndex. generalize (time.dayOfYear doe). intros d H.
  Z.to_euclidean_division_equations. lia.
Qed.

Lemma Month_range (t : time.Time) : 1 <= time.Month t <= 12.
Proof.
  unfold time.Month.
  pose proof (dayOfEra_range (time.dayNumber t)) as Hdoe.
  pose proof (monthIndex_range _ (dayOfYear_range _ Hdoe)) as [Hm _].
  destruct (time.monthIndex (time.dayOfEra (time.dayNumber t)) <? 10) eqn:E;
    [apply Z.ltb_lt in E | apply Z.ltb_ge in E]; lia.
Qed.

Lemma Day_range (t : time.Time) : 1 <= time.Day t <= 31.
Proof.
  unfold time.Day.
  pose proof (dayOfEra_range (time.dayNumber t)) as Hdoe.
  exact (proj2 (monthIndex_range _ (dayOfYear_range _ Hdoe))).
Qed.

Lemma secondOfDay_range (t : time.Time) : 0 <= time.secondOfDay t < 86400.
Proof. unfold time.secondOfDay. apply Z.mod_pos_bound. lia. Qed.

Lemma clock_range (t : time.Time) :
  0 <= time.Hour t <= 23 /\ 0 <= time.Minute t <= 59
  /\ 0 <= time.Second t <= 59.
Proof.
  pose proof (secondOfDay_range t) as H.
  unfold time.Hour, time.Minute, time.Second.
  generalize dependent (time.secondOfDay t). intros s H.
  Z.to_euclidean_division_equations. lia.
Qed.

End TimeRanges.

(** With a year of four digits the stamp is fourteen digits. *)
Lemma Format_fourteen_digits (t : time.Time) :
  (0 <= time.Year t <= 9999)%Z ->
  String.length (time.Format20060102150405 t) = 14
  /\ allChars isDigit (time.Format20060102150405 t) = true.
Proof.
  intros Hy.
  pose proof (Month_range t) as Hmo. pose proof (Day_range t) as Hd.
  pose proof (clock_range t) as (Hh & Hmi & Hs).
  destruct (fixedWidth_spec 4 _ (appendInt_four_digits _ Hy)) as [L1 D1].
  destruct (fixedWidth_spec 2 _ (appendInt_two_digits (time.Month t) ltac:(lia))) as [L2 D2].
  destruct (fixedWidth_spec 2 _ (appendInt_two_digits (time.Day t) ltac:(lia))) as [L3 D3].
  destruct (fixedWidth_spec 2 _ (appendInt_two_digits (time.Hour t) ltac:(lia))) as [L4 D4].
  destruct (fixedWidth_spec 2 _ (appendInt_two_digits (time.Minute t) ltac:(lia))) as [L5 D5].
  destruct (fixedWidth_spec 2 _ (appendInt_two_digits (time.Second t) ltac:(lia))) as [L6 D6].
  unfold time.Format20060102150405. split.
  - rewrite !length_append, L1, L2, L3, L4, L5, L6. reflexivity.
  - rewrite !allChars_append, D1, D2, D3, D4, D5, D6. reflexivity.
Qed.

Lemma length_hexEncode (bytes : list ascii) :
  String.length (git.hexEncode bytes) = 2 * length bytes.
Proof. induction bytes as [|b bytes IH]; simpl; [reflexivity | rewrite IH; lia]. Qed.

Lemma hexDigit_isHexDigit (n : N) : isHexDigit (git.hexDigit n) = true.
Proof.
  destruct n as [|p]; [reflexivity|].
  do 4 (destruct p as [p|p|]; try reflexivity).
Qed.

Lemma hexEncode_isHex (bytes : list ascii) :
  allChars isHexDigit (git.hexEncode bytes) = true.
Proof.
  induction bytes as [|b bytes IH]; [reflexivity|].
  simpl. rewrite !hexDigit_isHexDigit, IH. reflexivity.
Qed.

Lemma length_HashString (h : git.Hash) : String.length (git.HashString h) = 40.
Proof.
  unfold git.HashString. rewrite length_hexEncode, (git.hashSize h). reflexivity.
Qed.

Lemma length_substring (n : nat) :
  forall s, n <= String.length s -> String.length (String.substring 0 n s) = n.
Proof.
  induction n as [|n IH]; intros s H.
  - destruct s; reflexivity.
  - destruct s as [|c s]; simpl in *; [lia|]. rewrite IH; [reflexivity | lia].
Qed.

Lemma allChars_substring (f : ascii -> bool) (n : nat) :
  forall s, allChars f s = true -> allChars f (String.substring 0 n s) = true.
Proof.
  induction n as [|n IH]; intros s H.
  - destruct s; reflexivity.
  - destruct s as [|c s]; simpl in *; [reflexivity|].
    apply andb_true_iff in H as [Hc Hs]. rewrite Hc, (IH s Hs). reflexivity.
Qed.

Lemma sliceTo_HashString (h : git.Hash) :
  sliceTo (git.HashString h) 12
  = Ok (String.substring 0 12 (git.HashString h)).
Proof.
  unfold sliceTo. rewrite length_HashString. reflexivity.
Qed.

Lemma abbreviated_hash (h : git.Hash) :
  String.length (String.substring 0 12 (git.HashString h)) = 12
  /\ allChars isHexDigit (String.substring 0 12 (git.HashString h)) = true.
Proof.
  split.
  - apply length_substring. rewrite length_HashString. lia.
  - apply allChars_substring, hexEncode_isHex.
Qed.

Lemma HasPrefix_split (pre : string) :
  forall s, strings.HasPrefix s pre = true -> exists r, s = pre +:+ r.
Proof.
  unfold strings.HasPrefix.
  induction pre as [|a pre IH]; intros s H.
  - exists s. reflexivity.
  - destruct s as [|b s]; [discriminate|].
    change (String.prefix (String a pre) (String b s))
      with (if ascii_dec a b then String.prefix pre s else false) in H.
    destruct (ascii_dec a b) as [<-|]; [|discriminate].
    destruct (IH s H) as [r ->]. exists r. reflexivity.
Qed.

Lemma matching_tag_name (head : git.Hash) (reference : git.Reference) :
  tagMatches head reference = true ->
  exists rest,
    git.refName reference = "refs/tags/v" +:+ rest
    /\ strings.TrimPrefix (git.refName reference) "refs/tags/"
       = "v" +:+ rest.
Proof.
  unfold tagMatches, util.StartsWith. intros H.
  apply andb_true_iff in H as [_ H].
  destruct (HasPrefix_split _ _ H) as [rest Hname].
  exists rest. split; [exact Hname|]. rewrite Hname. reflexivity.
Qed.

Lemma forEachTag_find (head : git.Hash) (tags : list git.Reference) :
  forEachTag head tags
  = match find (tagMatches head) tags with
    | Some reference =>
      strings.TrimPrefix (git.refName reference) "refs/tags/"
    | None => ""
    end.
Proof.
  induction tags as [|reference tags IH]; simpl; [reflexivity|].
  destruct (tagMatches head reference); [reflexivity | exact IH].
Qed.

Lemma GetVersionFromTag_opened (w : World) (modulePath : string)
  (repo : git.Repository) (headRef : git.Reference)
  (tags : list git.Reference) :
  PlainOpen w modulePath = Ok repo ->
  git.Head repo = Ok headRef ->
  git.Tags repo = Ok tags ->
  GetVersionFromTag w modulePath
  = match find (tagMatches (git.refHash headRef)) tags with
    | Some reference =>
      Ok (strings.TrimPrefix (git.refName reference) "refs/tags/")
    | None => Err ErrObjectNotFound
    end.
Proof.
  intros Hopen Hhead Htags. unfold GetVersionFromTag.
  rewrite Hopen. simpl. rewrite Hhead. simpl. rewrite Htags. simpl.
  rewrite forEachTag_find.
  destruct (find (tagMatches (git.refHash headRef)) tags) as [reference|] eqn:F;
    [|reflexivity].
  apply find_some in F as [_ Hm].
  destruct (matching_tag_name _ _ Hm) as (rest & _ & ->). reflexivity.
Qed.

Lemma GetPseudoVersion_inv (w : World) (modulePath v : string) :
  GetPseudoVersion w modulePath = Ok v ->
  exists repo headRef headCommit,
    PlainOpen w modulePath = Ok repo
    /\ git.Head repo = Ok headRef
    /\ git.CommitObject repo (git.refHash headRef) = Ok headCommit
    /\ v = "v0.0.0-"
           +:+ time.Format20060102150405 (git.authorWhen headCommit)
           +:+ "-"
           +:+ String.substring 0 12 (git.HashString (git.commitHash headCommit)).
Proof.
  unfold GetPseudoVersion. intros H.
  destruct (PlainOpen w modulePath) as [repo| |] eqn:E1; try discriminate.
  simpl in H. destruct (git.Head repo) as [headRef| |] eqn:E2; try discriminate.
  simpl in H.
  destruct (git.CommitObject repo (git.refHash headRef)) as [headCommit| |] eqn:E3;
    try discriminate.
  simpl in H. rewrite sliceTo_HashString in H. simpl in H.
  injection H as <-. exists repo, headRef, headCommit.
  repeat split; assumption || reflexivity.
Qed.

Lemma GetPseudoVersion_opened (w : World) (modulePath : string)
  (repo : git.Repository) (headRef : git.Reference) (headCommit : git.Commit) :
  PlainOpen w modulePath = Ok repo ->
  git.Head repo = Ok headRef ->
  git.CommitObject repo (git.refHash headRef) = Ok headCommit ->
  GetPseudoVersion w modulePath
  = Ok ("v0.0.0-"
        +:+ time.Format20060102150405 (git.authorWhen headCommit)
        +:+ "-"
        +:+ String.substring 0 12 (git.HashString (git.commitHash headCommit))).
Proof.
  intros Hopen Hhead Hcommit. unfold GetPseudoVersion.
  rewrite Hopen. simpl. rewrite Hhead. simpl. rewrite Hcommit. simpl.
  rewrite sliceTo_HashString. reflexivity.
Qed.

Lemma GetModuleVersion_fallback (w : World) (modulePath : string) (err : error) :
  GetVersionFromTag w modulePath = Err err ->
  GetModuleVersion w modulePath = GetPseudoVersion w modulePath.
Proof.
  intros H. unfold GetModuleVersion. rewrite H.
  destruct (GetPseudoVersion w modulePath); reflexivity.
Qed.

Section CivilTime.
Local Open Scope Z_scope.

Lemma yearOfEra_range (doe : Z) :
  0 <= doe < 146097 -> 0 <= time.yearOfEra doe <= 399.
Proof.
  intros H. unfold time.yearOfEra.
  Z.to_euclidean_division_equations. lia.
Qed.

(** The date shown is the date of the day number. *)
Lemma daysFromCivil_date (t : time.Time) :
  time.daysFromCivil (time.Year t) (time.Month t) (time.Day t)
  = time.dayNumber t.
Proof.
  pose proof (dayOfEra_range (time.dayNumber t)) as Hdoe.
  pose proof (yearOfEra_range _ Hdoe) as Hyoe.
  pose proof (monthIndex_range _ (dayOfYear_range _ Hdoe)) as [Hmp _].
  unfold time.daysFromCivil, time.Year, time.Month, time.Day.
  set (days := time.dayNumber t) in *.
  set (doe := time.dayOfEra days) in *.
  set (yoe := time.yearOfEra doe) in *.
  set (mp := time.monthIndex doe) in *.
  assert (time.dayOfYear doe = doe - (365 * yoe + yoe / 4 - yoe / 100))
    as Hdoy by reflexivity.
  assert (days + 719468 = 146097 * time.eraOf days + doe) as Hdays.
  { unfold doe, time.dayOfEra, time.eraOf. apply Z.div_mod. lia. }
  set (era := time.eraOf days) in *.
  set (month := if mp <? 10 then mp + 3 else mp - 9).
  assert ((if month <=? 2 then month + 9 else month - 3) = mp) as ->.
  { unfold month. destruct (mp <? 10) eqn:E;
      [apply Z.ltb_lt in E | apply Z.ltb_ge in E].
    - destruct (mp + 3 <=? 2) eqn:E2;
        [apply Z.leb_le in E2 | apply Z.leb_gt in E2]; lia.
    - destruct (mp - 9 <=? 2) eqn:E2;
        [apply Z.leb_le in E2 | apply Z.leb_gt in E2]; lia. }
  assert ((if month <=? 2
           then yoe + era * 400 + (if month <=? 2 then 1 else 0) - 1
           else yoe + era * 400 + (if month <=? 2 then 1 else 0))
          = yoe + era * 400) as ->.
  { destruct (month <=? 2); lia. }
  assert ((yoe + era * 400) / 400 = era) as ->.
  { rewrite Z.div_add by lia. rewrite Z.div_small by lia. lia. }
  assert ((yoe + era * 400) mod 400 = yoe) as ->.
  { rewrite Z.mod_add by lia. apply Z.mod_small. lia. }
  rewrite Hdoy. lia.
Qed.

(** The stamp reads back as the second on the wall clock. *)
Lemma civilSeconds_shown (t : time.Time) :
  time.civilSeconds (time.Year t) (time.Month t) (time.Day t)
                    (time.Hour t) (time.Minute t) (time.Second t)
  = time.absSec t - time.unixToAbsolute.
Proof.
  unfold time.civilSeconds. rewrite daysFromCivil_date.
  unfold time.Hour, time.Minute, time.Second, time.dayNumber,
    time.secondOfDay, time.unixToAbsolute.
  generalize (time.absSec t). intros a.
  Z.to_euclidean_division_equations. lia.
Qed.

Lemma absSec_in_range (t : time.Time) :
  - time.unixToAbsolute <= time.unixSec t + time.zoneOffset t < 2 ^ 63 ->
  time.absSec t - time.unixToAbsolute
  = time.unixSec t + time.zoneOffset t.
Proof.
  unfold time.absSec, time.wallSec, time.wrapInt64, time.unixToAbsolute.
  generalize (time.unixSec t + time.zoneOffset t). intros s H.
  change (2 ^ 63) with 9223372036854775808 in *.
  change (2 ^ 64) with 18446744073709551616.
  rewrite (Z.mod_small (s + 9223372036854775808)) by lia.
  rewrite Z.mod_small by lia. lia.
Qed.

End CivilTime.

Lemma appendInt_decimal_two (x : Z) :
  (0 <= x < 100)%Z -> time.appendInt x 2 = decimal 2 x.
Proof.
  intros H. apply String.eqb_eq.
  apply (allFrom_spec (isDecimal 2) 100 0%Z); [vm_compute; reflexivity | lia].
Qed.

Lemma appendInt_decimal_four (x : Z) :
  (0 <= x <= 9999)%Z -> time.appendInt x 4 = decimal 4 x.
Proof.
  intros H. apply String.eqb_eq.
  apply (allFrom_spec (isDecimal 4) (Z.to_nat 10000) 0%Z);
    [vm_compute; reflexivity | lia].
Qed.

(** With a year of four digits the stamp is the six fields in decimal,
    each of its width. *)
Lemma Format_decimal (t : time.Time) :
  (0 <= time.Year t <= 9999)%Z ->
  time.Format20060102150405 t
  = decimal 4 (time.Year t) +:+ decimal 2 (time.Month t)
    +:+ decimal 2 (time.Day t) +:+ decimal 2 (time.Hour t)
    +:+ decimal 2 (time.Minute t) +:+ decimal 2 (time.Second t).
Proof.
  intros Hy.
  pose proof (Month_range t) as Hmo. pose proof (Day_range t) as Hd.
  pose proof (clock_range t) as (Hh & Hmi & Hs).
  unfold time.Format20060102150405.
  rewrite (appendInt_decimal_four _ Hy).
  rewrite (appendInt_decimal_two (time.Month t)) by lia.
  rewrite (appendInt_decimal_two (time.Day t)) by lia.
  rewrite (appendInt_decimal_two (time.Hour t)) by lia.
  rewrite (appendInt_decimal_two (time.Minute t)) by lia.
  rewrite (appendInt_decimal_two (time.Second t)) by lia.
  reflexivity.
Qed.

Lemma GetVersionFromTag_starts_with_v (w : World) (modulePath v : string) :
  GetVersionFromTag w modulePath = Ok v -> exists rest, v = "v" +:+ rest.
Proof.
  unfold GetVersionFromTag. intros H.
  destruct (PlainOpen w modulePath) as [repo| |]; try discriminate.
  simpl in H. destruct (git.Head repo) as [headRef| |]; try discriminate.
  simpl in H. destruct (git.Tags repo) as [tags| |]; try discriminate.
  simpl in H. rewrite forEachTag_find in H.
  destruct (find (tagMatches (git.refHash headRef)) tags) as [reference|] eqn:F.
  - apply find_some in F as [_ Hm].
    destruct (matching_tag_name _ _ Hm) as (rest & _ & Hname).
    rewrite Hname in H. simpl in H. injection H as <-. eauto.
  - discriminate.
Qed.

Lemma find_no_v_tag (head : git.Hash) (tags : list git.Reference) :
  Forall (fun reference =>
            util.StartsWith (git.refName reference) "refs/tags/v" = false)
         tags ->
  find (tagMatches head) tags = None.
Proof.
  induction 1 as [|reference tags Hr _ IH]; simpl; [reflexivity|].
  unfold tagMatches at 1. rewrite Hr, andb_false_r. exact IH.
Qed.


(** ** Local replacements *)

Section Resolution.

Variable w : World.
Variable mainModulePath : string.

Lemma lbind_Ok {A B : Type} (a : A) (out : list string) (k : A -> logged B) :
  lbind (Ok a, out) k = (fst (k a), out ++ snd (k a)).
Proof. simpl. destruct (k a). reflexivity. Qed.

Lemma resolveLocalModules_cons_Ok (m m' : Module) (rest rest' : list Module)
  (out out' : list string) :
  resolveReplacement w mainModulePath m = (Ok m', out) ->
  resolveLocalModules w mainModulePath rest = (Ok rest', out') ->
  resolveLocalModules w mainModulePath (m :: rest)
  = (Ok (m' :: rest'), out ++ out').
Proof.
  intros Hm Hrest. simpl. rewrite Hm, lbind_Ok, Hrest. simpl.
  rewrite app_nil_r. reflexivity.
Qed.

Lemma resolveLocalModules_cons_inv (m : Module) (rest l : list Module)
  (out : list string) :
  resolveLocalModules w mainModulePath (m :: rest) = (Ok l, out) ->
  exists m' rest' out1 out2,
    resolveReplacement w mainModulePath m = (Ok m', out1)
    /\ resolveLocalModules w mainModulePath rest = (Ok rest', out2)
    /\ l = m' :: rest' /\ out = out1 ++ out2.
Proof.
  simpl.
  destruct (resolveReplacement w mainModulePath m) as [[m'| |] out1];
    simpl; try discriminate.
  destruct (resolveLocalModules w mainModulePath rest) as [[rest'| |] out2];
    simpl; try discriminate.
  intros [= <- <-]. exists m', rest', out1, out2.
  rewrite app_nil_r. auto.
Qed.

Lemma resolveLocalModules_app_Ok (before after before' after' : list Module)
  (out1 out2 : list string) :
  resolveLocalModules w mainModulePath before = (Ok before', out1) ->
  resolveLocalModules w mainModulePath after = (Ok after', out2) ->
  resolveLocalModules w mainModulePath (before ++ after)
  = (Ok (before' ++ after'), out1 ++ out2).
Proof.
  revert before' out1.
  induction before as [|m before IH]; intros before' out1 Hb Ha.
  - simpl in Hb. injection Hb as <- <-. exact Ha.
  - apply resolveLocalModules_cons_inv in Hb
      as (m' & rest' & o1 & o2 & Hm & Hrest & -> & ->).
    rewrite <- app_comm_cons.
    rewrite (resolveLocalModules_cons_Ok m m' _ (rest' ++ after') o1 (o2 ++ out2) Hm).
    + rewrite <- app_assoc. reflexivity.
    + apply IH; assumption.
Qed.

Lemma resolveLocalModules_stops (before before' after : list Module)
  (m : Module) (out out' : list string) (err : error) :
  resolveLocalModules w mainModulePath before = (Ok before', out) ->
  resolveReplacement w mainModulePath m = (Err err, out') ->
  resolveLocalModules w mainModulePath (before ++ m :: after)
  = (Err err, out ++ out').
Proof.
  revert before' out.
  induction before as [|m0 before IH]; intros before' out Hb Hm.
  - simpl in Hb. injection Hb as <- <-. simpl. rewrite Hm. reflexivity.
  - apply resolveLocalModules_cons_inv in Hb
      as (m' & rest' & o1 & o2 & Hm0 & Hrest & -> & ->).
    rewrite <- app_comm_cons. simpl.
    rewrite Hm0, lbind_Ok, (IH _ _ Hrest Hm). simpl.
    rewrite <- app_assoc. reflexivity.
Qed.

Lemma resolveLocalModules_never_Ok (before after : list Module) (m : Module)
  (out' : list string) (err : error) :
  resolveReplacement w mainModulePath m = (Err err, out') ->
  isOk (fst (resolveLocalModules w mainModulePath (before ++ m :: after)))
  = false.
Proof.
  intros Hm. induction before as [|m0 before IH].
  - simpl. rewrite Hm. reflexivity.
  - rewrite <- app_comm_cons. simpl.
    destruct (resolveReplacement w mainModulePath m0) as [[m'| |] o1];
      simpl; try reflexivity.
    destruct (resolveLocalModules w mainModulePath (before ++ m :: after))
      as [[l| |] o2]; simpl in *; [discriminate | reflexivity | reflexivity].
Qed.

Lemma resolveReplacement_Err (m module : Module) (err : error)
  (out : list string) :
  Replace m = Some module ->
  IsGoModule w (Path module) = true ->
  resolveLocalModule w mainModulePath module = (Err err, out) ->
  resolveReplacement w mainModulePath m
  = (Err (resolvingFailed module err), out).
Proof.
  intros Hr Hgate Hres. unfold resolveReplacement.
  rewrite Hr, Hgate, Hres. reflexivity.
Qed.

Lemma resolveReplacement_Ok (m module module' : Module) (out : list string) :
  Replace m = Some module ->
  IsGoModule w (Path module) = true ->
  resolveLocalModule w mainModulePath module = (Ok module', out) ->
  resolveReplacement w mainModulePath m
  = (Ok (withReplace (Some module') m), out).
Proof.
  intros Hr Hgate Hres. unfold resolveReplacement.
  rewrite Hr, Hgate, Hres. simpl. rewrite app_nil_r. reflexivity.
Qed.

Lemma GetModules_resolution_fails (records : list Module) (err : error)
  (out : list string) :
  IsGoModule w mainModulePath = true ->
  listModuleRecords w mainModulePath = Ok records ->
  resolveLocalModules w mainModulePath records = (Err err, out) ->
  GetModules w mainModulePath = (Err err, out).
Proof.
  intros Hmain Hlist Hres. unfold GetModules.
  rewrite Hmain, Hlist. simpl. rewrite Hres. reflexivity.
Qed.

Lemma GetModules_not_Ok (records : list Module) :
  IsGoModule w mainModulePath = true ->
  listModuleRecords w mainModulePath = Ok records ->
  isOk (fst (resolveLocalModules w mainModulePath records)) = false ->
  isOk (fst (GetModules w mainModulePath)) = false.
Proof.
  intros Hmain Hlist Hres. unfold GetModules.
  rewrite Hmain, Hlist. simpl.
  destruct (resolveLocalModules w mainModulePath records) as [[l| |] o];
    simpl in *; [discriminate | reflexivity | reflexivity].
Qed.

Lemma GetModules_Ok (records resolved modules : list Module)
  (out : list string) (graph : string) :
  IsGoModule w mainModulePath = true ->
  listModuleRecords w mainModulePath = Ok records ->
  resolveLocalModules w mainModulePath records = (Ok resolved, out) ->
  GetModuleGraph w mainModulePath = Ok graph ->
  parseModuleGraph graph resolved = Ok modules ->
  GetModules w mainModulePath = (Ok modules, out).
Proof.
  intros Hmain Hlist Hres Hgraph Hparse. unfold GetModules.
  rewrite Hmain, Hlist. simpl. rewrite Hres. simpl.
  rewrite Hgraph. simpl. rewrite Hparse. simpl.
  rewrite !app_nil_r. reflexivity.
Qed.

Lemma Join_rooted (p : string) :
  filepath.IsAbs mainModulePath = true ->
  filepath.IsAbs (filepath.Join [mainModulePath; p]) = true.
Proof.
  intros Habs. destruct mainModulePath as [|c r] eqn:E; [discriminate|].
  unfold filepath.Join. simpl String.eqb. cbv iota.
  unfold filepath.Clean.
  change (strings.Join [String c r; p] "/") with (String c (r +:+ "/" +:+ p)).
  simpl String.eqb. cbv iota.
  rewrite IsAbs_cons in *. rewrite Habs.
  match goal with
  | |- filepath.IsAbs ("/" +:+ ?body) = true =>
    change ("/" +:+ body) with (String "/" body)
  end.
  rewrite IsAbs_cons. reflexivity.
Qed.

End Resolution.

Lemma noSlash_append (a b : string) :
  noSlash (a +:+ b) = noSlash a && noSlash b.
Proof.
  induction a as [|x a IH]; [reflexivity|].
  rewrite append_cons. simpl. rewrite IH. apply andb_assoc.
Qed.

Lemma splitFrom_elements_noSlash (s : string) :
  forall cur, noSlash cur = true ->
              Forall (fun e => noSlash e = true) (filepath.splitFrom cur s).
Proof.
  induction s as [|c r IH]; intros cur Hcur; simpl.
  - constructor; [exact Hcur | constructor].
  - destruct (Ascii.eqb c filepath.slash) eqn:E.
    + constructor; [exact Hcur | apply IH; reflexivity].
    + apply IH. rewrite noSlash_append, Hcur. simpl. rewrite E. reflexivity.
Qed.

Lemma cleanStep_written (rooted : bool) (out : list string) (e : string) :
  noSlash e = true -> Forall written out ->
  Forall written (filepath.cleanStep rooted out e).
Proof.
  intros He Hout. unfold filepath.cleanStep.
  destruct (String.eqb e "") eqn:E0; [exact Hout|].
  apply String.eqb_neq in E0.
  assert (written e) as Hw by (split; assumption).
  destruct (String.eqb e "."); simpl; [exact Hout|].
  destruct (String.eqb e "..").
  - destruct out as [|top below].
    + destruct rooted; [constructor | constructor; [exact Hw | constructor]].
    + destruct (String.eqb top "..").
      * constructor; assumption.
      * inversion Hout; assumption.
  - constructor; assumption.
Qed.

Lemma fold_cleanStep_written (rooted : bool) (es : list string) :
  Forall (fun e => noSlash e = true) es ->
  forall out, Forall written out ->
              Forall written (fold_left (filepath.cleanStep rooted) es out).
Proof.
  induction 1 as [|e es He _ IH]; intros out Hout; simpl; [exact Hout|].
  apply IH, cleanStep_written; assumption.
Qed.

Lemma Join_written_relative (es : list string) :
  Forall written es -> filepath.IsAbs (strings.Join es "/") = false.
Proof.
  intros H. destruct H as [|e es [He Hne] _]; [reflexivity|].
  destruct e as [|c r]; [contradiction|].
  simpl in He. apply andb_true_iff in He as [Hc _].
  apply negb_true_iff in Hc.
  destruct es; simpl strings.Join; [|rewrite append_cons];
    rewrite IsAbs_cons; exact Hc.
Qed.

(** [Clean] keeps a rooted path rooted and a relative path relative. *)
Lemma IsAbs_Clean (p : string) :
  filepath.IsAbs (filepath.Clean p) = filepath.IsAbs p.
Proof.
  unfold filepath.Clean.
  destruct (String.eqb p "") eqn:E0.
  - apply String.eqb_eq in E0. subst p. reflexivity.
  - destruct (filepath.IsAbs p) eqn:Habs.
    + match goal with
      | |- filepath.IsAbs ("/" +:+ ?body) = true =>
        change ("/" +:+ body) with (String "/" body)
      end.
      rewrite IsAbs_cons. reflexivity.
    + match goal with
      | |- context [strings.Join (rev ?out) "/"] =>
        assert (Forall written (rev out)) as Hout
      end.
      { apply Forall_rev, fold_cleanStep_written; [|constructor].
        apply splitFrom_elements_noSlash. reflexivity. }
      match goal with
      | |- filepath.IsAbs (if ?test then _ else _) = false => destruct test
      end; [reflexivity|].
      apply Join_written_relative, Hout.
Qed.

(** The joined path is rooted exactly when the main module's is. *)
Lemma IsAbs_Join_relative (mainModulePath p : string) :
  filepath.IsAbs p = false ->
  filepath.IsAbs (filepath.Join [mainModulePath; p])
  = filepath.IsAbs mainModulePath.
Proof.
  intros Hrel. destruct mainModulePath as [|c r].
  - change (filepath.Join [""; p])
      with (if String.eqb p "" then "" else filepath.Clean (strings.Join [p] "/")).
    destruct (String.eqb p ""); [reflexivity|].
    simpl strings.Join. rewrite IsAbs_Clean. exact Hrel.
  - change (filepath.Join [String c r; p])
      with (filepath.Clean (strings.Join [String c r; p] "/")).
    rewrite IsAbs_Clean.
    change (strings.Join [String c r; p] "/") with (String c (r +:+ "/" +:+ p)).
    rewrite !IsAbs_cons. reflexivity.
Qed.

(** C7, as amended. For a replacement with a relative path that
    [resolveLocalModule] does not pass over as cached (it passes over
    one whose [Dir] is a module root and has the module cache directory
    as a prefix of its string), the directory looked at is
    [filepath.Join(mainModulePath, Path)]: an absolute path exactly when
    [mainModulePath] is one, and a relative path when it is relative.
    When that directory is no module root, [resolveLocalModule] returns
    [ErrNoGoModule], and [GetModules], which calls it for the
    replacements whose path as written passes [util.IsGoModule], fails
    with an error that wraps [ErrNoGoModule]. *)
Theorem local_replacement_resolved_against_main_module
  (w : World) (mainModulePath : string) (module : Module) :
  inModuleCache w module = false ->
  filepath.IsAbs (Path module) = false ->
  localModulePath mainModulePath module
  = filepath.Join [mainModulePath; Path module]
  /\ filepath.IsAbs (localModulePath mainModulePath module)
     = filepath.IsAbs mainModulePath
  /\ (IsGoModule w (localModulePath mainModulePath module) = false ->
      resolveLocalModule w mainModulePath module = (Err ErrNoGoModule, [])
      /\ errors_Is (resolvingFailed module ErrNoGoModule) ErrNoGoModule = true
      /\ forall before m after,
           IsGoModule w mainModulePath = true ->
           listModuleRecords w mainModulePath = Ok (before ++ m :: after) ->
           Replace m = Some module ->
           IsGoModule w (Path module) = true ->
           isOk (fst (GetModules w mainModulePath)) = false
           /\ forall before' out,
                resolveLocalModules w mainModulePath before
                = (Ok before', out) ->
                GetModules w mainModulePath
                = (Err (resolvingFailed module ErrNoGoModule), out)).
Proof.
  intros Hcache Hrel.
  assert (localModulePath mainModulePath module
          = filepath.Join [mainModulePath; Path module]) as Hpath.
  { unfold localModulePath. rewrite Hrel. reflexivity. }
  split; [exact Hpath|]. split.
  - rewrite Hpath. apply IsAbs_Join_relative, Hrel.
  - intros Hnot.
    assert (resolveLocalModule w mainModulePath module
            = (Err ErrNoGoModule, [])) as Hres.
    { unfold resolveLocalModule. rewrite Hcache, Hnot. reflexivity. }
    split; [exact Hres|]. split.
    + reflexivity.
    + intros before m after Hmain Hlist Hr Hgate.
      pose proof (resolveReplacement_Err w mainModulePath m module _ _
                    Hr Hgate Hres) as Hstep.
      split.
      * eapply GetModules_not_Ok; eauto.
        eapply resolveLocalModules_never_Ok; eauto.
      * intros before' out Hbefore.
        eapply GetModules_resolution_fails; eauto.
        rewrite (resolveLocalModules_stops w mainModulePath before before'
                   after m out [] _ Hbefore Hstep).
        rewrite app_nil_r. reflexivity.
Qed.

(** The errors [resolveLocalModule] returns: the directory is no module
    root, the go command fails on it, or its output cannot be decoded.
    None comes from the version step, and nothing is logged with one. *)
Lemma resolveLocalModule_errors (w : World) (mainModulePath : string)
  (module : Module) (err : error) (out : list string) :
  resolveLocalModule w mainModulePath module = (Err err, out) ->
  out = []
  /\ inModuleCache w module = false
  /\ ((IsGoModule w (localModulePath mainModulePath module) = false
       /\ err = ErrNoGoModule)
      \/ GetModule w (localModulePath mainModulePath module) = Err err
      \/ exists buf,
           GetModule w (localModulePath mainModulePath module) = Ok buf
           /\ decodeModule w buf = Err err).
Proof.
  unfold resolveLocalModule.
  destruct (inModuleCache w module) eqn:Hcache; [discriminate|].
  destruct (IsGoModule w (localModulePath mainModulePath module)) eqn:Hmod;
    simpl.
  - destruct (GetModule w (localModulePath mainModulePath module))
      as [buf|e|msg] eqn:Hget; simpl; try discriminate.
    + destruct (decodeModule w buf) as [localModule|e|msg] eqn:Hdec; simpl;
        try discriminate.
      * destruct (String.eqb (Version module) ""); simpl.
        -- destruct (GetModuleVersion w (Dir module)); simpl; discriminate.
        -- discriminate.
      * intros [= <- <-]. split; [reflexivity|]. split; [reflexivity|].
        right. right. exists buf. split; [reflexivity | exact Hdec].
    + intros [= <- <-]. split; [reflexivity|]. split; [reflexivity|].
      right. left. reflexivity.
  - intros [= <- <-]. split; [reflexivity|]. split; [reflexivity|].
    left. split; reflexivity.
Qed.

(** C8. When [resolveLocalModule] reaches the version step for a
    replacement without a version and [GetModuleVersion] fails on its
    directory, it returns nil: the failure is one line in the log, the
    replacement keeps the empty [Version] (and gets the path found in
    the directory), and the loop of [GetModules] goes on to the next
    record and to the graph. *)
Theorem unresolved_local_version_is_not_fatal
  (w : World) (mainModulePath : string) (module localModule : Module)
  (buf : string) (err : error) :
  inModuleCache w module = false ->
  IsGoModule w (localModulePath mainModulePath module) = true ->
  GetModule w (localModulePath mainModulePath module) = Ok buf ->
  decodeModule w buf = Ok localModule ->
  Version module = "" ->
  GetModuleVersion w (Dir module) = Err err ->
  let resolved := withPath (Path localModule) module in
  let warning := versionWarning (Path localModule) err in
  resolveLocalModule w mainModulePath module = (Ok resolved, [warning])
  /\ Version resolved = ""
  /\ forall m,
       Replace m = Some module ->
       IsGoModule w (Path module) = true ->
       (forall rest rest' out,
          resolveLocalModules w mainModulePath rest = (Ok rest', out) ->
          resolveLocalModules w mainModulePath (m :: rest)
          = (Ok (withReplace (Some resolved) m :: rest'), warning :: out))
       /\ (forall before before' out1 after after' out2 graph modules,
             IsGoModule w mainModulePath = true ->
             listModuleRecords w mainModulePath = Ok (before ++ m :: after) ->
             resolveLocalModules w mainModulePath before = (Ok before', out1) ->
             resolveLocalModules w mainModulePath after = (Ok after', out2) ->
             GetModuleGraph w mainModulePath = Ok graph ->
             parseModuleGraph graph
               (before' ++ withReplace (Some resolved) m :: after')
             = Ok modules ->
             GetModules w mainModulePath
             = (Ok modules, out1 ++ warning :: out2)).
Proof.
  intros Hcache Hmod Hget Hdecode Hversion Hfail resolved warning.
  assert (resolveLocalModule w mainModulePath module
          = (Ok resolved, [warning])) as Hres.
  { unfold resolveLocalModule. rewrite Hcache, Hmod. simpl negb. cbv iota.
    rewrite Hget. simpl. rewrite Hdecode. simpl.
    rewrite Hversion. simpl. rewrite Hfail. reflexivity. }
  split; [exact Hres|]. split; [exact Hversion|].
  intros m Hr Hgate.
  pose proof (resolveReplacement_Ok w mainModulePath m module resolved _
                Hr Hgate Hres) as Hstep.
  assert (forall rest rest' out,
            resolveLocalModules w mainModulePath rest = (Ok rest', out) ->
            resolveLocalModules w mainModulePath (m :: rest)
            = (Ok (withReplace (Some resolved) m :: rest'), warning :: out))
    as Hloop.
  { intros rest rest' out Hrest.
    exact (resolveLocalModules_cons_Ok w mainModulePath m _ rest rest'
             [warning] out Hstep Hrest). }
  split; [exact Hloop|].
  intros before before' out1 after after' out2 graph modules
         Hmain Hlist Hbefore Hafter Hgraph Hparse.
  eapply GetModules_Ok; eauto.
  apply resolveLocalModules_app_Ok; [exact Hbefore|].
  apply Hloop, Hafter.
Qed.

(** ** Failures *)

Lemma index_in_range {A : Type} (s : list A) (i : Z) :
  (0 <= i < len s)%Z -> exists a, elemAt s i = Ok a.
Proof.
  unfold len, elemAt. intros H.
  destruct (i <? 0)%Z eqn:E; [apply Z.ltb_lt in E; lia|].
  destruct (s !! Z.to_nat i) as [a|] eqn:L; [eauto|].
  apply lookup_ge_None in L. lia.
Qed.

Lemma index_out_of_range {A : Type} (s : list A) (i : Z) :
  (len s <= i)%Z -> exists msg, elemAt s i = Panic msg.
Proof.
  unfold len, elemAt. intros H.
  destruct (i <? 0)%Z eqn:E; [eauto|].
  destruct (s !! Z.to_nat i) as [a|] eqn:L; [|eauto].
  apply lookup_lt_Some in L. lia.
Qed.

(** A descriptive line whose first arrow is its last field makes
    [parseVendoredModules] index past the end of [fields]. *)
Lemma parseVendoredLine_arrow_last (path text : string) :
  strings.HasPrefix (strings.TrimSpace text) "# " = true ->
  (let fields :=
     strings.Fields (strings.TrimPrefix (strings.TrimSpace text) "# ") in
   0 <= util.StringSliceIndex fields "=>"
   /\ util.StringSliceIndex fields "=>" = len fields - 1)%Z ->
  exists msg, parseVendoredLine path text = Panic msg.
Proof.
  intros Hpre. cbv zeta. intros [Hfound Harrow]. unfold parseVendoredLine.
  rewrite Hpre. simpl negb. cbv iota.
  set (fields := strings.Fields _) in *.
  assert (0 < len fields)%Z as Hlen by lia.
  rewrite Harrow.
  destruct (len fields - 1 =? -1)%Z eqn:E; [apply Z.eqb_eq in E; lia|].
  destruct (index_in_range fields 0 ltac:(lia)) as [p ->]. simpl.
  destruct (index_out_of_range fields (len fields - 1 + 1) ltac:(lia))
    as [msg Hmsg].
  destruct (len fields - 1 =? 2)%Z eqn:E2.
  - apply Z.eqb_eq in E2.
    destruct (index_in_range fields 1 ltac:(lia)) as [v ->]. simpl.
    rewrite Hmsg. simpl. eauto.
  - simpl. rewrite Hmsg. simpl. eauto.
Qed.

(** C6. The arrow branch of [parseVendoredModules] does not count its
    fields: on [# example.com/a =>] it indexes [fields] past its end,
    which is a run-time panic and no parse error, and on lines with
    fields to spare it drops them and returns a record, where the branch
    without an arrow returns the field-count error. *)
Theorem arrow_without_replacement_panics :
  parseVendoredModules "/src/app" ("# example.com/a =>" +:+ Sample.LF)
  = Panic "runtime error: index out of range [2] with length 2"
  /\ parseVendoredModules "/src/app" ("# a b c => d" +:+ Sample.LF)
     = Ok [vendoredReplacement "/src/app" "a" None "d" None]
  /\ parseVendoredModules "/src/app" ("# a => b c d" +:+ Sample.LF)
     = Ok [vendoredReplacement "/src/app" "a" None "b" None]
  /\ parseVendoredModules "/src/app" ("# a b c" +:+ Sample.LF)
     = Err (ErrFormatted "expected two fields per line, but got 3: # a b c").
Proof. repeat split; vm_compute; reflexivity. Qed.

(** C9, as amended. When both strategies fail, [GetModuleVersion]
    returns the error of [GetPseudoVersion] as it is; the error of
    [GetVersionFromTag] is dropped. *)
Theorem version_failure_is_the_pseudo_version_failure
  (w : World) (modulePath : string) (tagErr pseudoErr : error) :
  GetVersionFromTag w modulePath = Err tagErr ->
  GetPseudoVersion w modulePath = Err pseudoErr ->
  GetModuleVersion w modulePath = Err pseudoErr.
Proof.
  intros Htag Hpseudo. unfold GetModuleVersion.
  rewrite Htag, Hpseudo. reflexivity.
Qed.

Lemma version_failure_is_the_pseudo_version_failure_witness :
  GetVersionFromTag Sample.world "/src/corrupt" = Err ErrObjectNotFound
  /\ GetPseudoVersion Sample.world "/src/corrupt"
     = Err (ErrExternal "zlib: invalid header")
  /\ GetModuleVersion Sample.world "/src/corrupt"
     = Err (ErrExternal "zlib: invalid header").
Proof.
  split; [reflexivity|]. split; [reflexivity|].
  apply (version_failure_is_the_pseudo_version_failure
           Sample.world "/src/corrupt" ErrObjectNotFound
           (ErrExternal "zlib: invalid header")); reflexivity.
Defined.

(** C9, the claim as stated fails: in the repository whose head commit
    cannot be read, the tag strategy fails with [object not found], the
    fallback with the decoder's error, and the error returned does not
    carry the first. *)
Lemma version_failures_are_not_combined :
  ~ (forall (w : World) (modulePath : string) (tagErr pseudoErr err : error),
       GetVersionFromTag w modulePath = Err tagErr ->
       GetPseudoVersion w modulePath = Err pseudoErr ->
       GetModuleVersion w modulePath = Err err ->
       errors_Is err tagErr = true /\ errors_Is err pseudoErr = true).
Proof.
  intros H.
  destruct (H Sample.world "/src/corrupt" ErrObjectNotFound
              (ErrExternal "zlib: invalid header")
              (ErrExternal "zlib: invalid header")
              eq_refl eq_refl eq_refl) as [Htag _].
  discriminate Htag.
Qed.

(** C10. [Hash] is [dirhash.HashDir] of the record's [Dir] with its
    coordinate as prefix, whatever [Vendored] is: the result for a
    vendored record is the result for the same record not vendored. *)
Theorem Hash_does_not_look_at_Vendored (w : World) (m : Module) :
  Hash w m = HashDir w (Dir m) (Coordinates m)
  /\ (forall vendored, Hash w (withVendored vendored m) = Hash w m).
Proof.
  assert (forall x, Hash w x = HashDir w (Dir x) (Coordinates x)) as H.
  { intros x. unfold Hash. destruct (HashDir w (Dir x) (Coordinates x)); reflexivity. }
  split; [apply H|]. intros vendored. rewrite !H. reflexivity.
Qed.

Example Hash_of_a_vendored_module :
  exists m h,
    In m Sample.modules /\ Vendored m = true /\ Hash Sample.world m = Ok h.
Proof.
  eexists. eexists. split; [right; right; left; reflexivity|].
  split; reflexivity.
Qed.

(** ** On the sample machine *)

Lemma Sample_modules_NoDup : NoDup (Coordinates <$> Sample.modules).
Proof.
  apply NoDup_ListNoDup. vm_compute.
  repeat (constructor; [simpl; intuition discriminate|]). constructor.
Qed.

Lemma findModule_follows_replacement_witness :
  Sample.modules !! 1
  = Some (mkModule "" false "example.com/lib" (Some Sample.libReplacement)
                   "v1.0.0" [] false)
  /\ findModule Sample.modules "example.com/lib@v1.0.0" = Some (ReplaceOf 1)
  /\ deref Sample.modules (ReplaceOf 1) = Some Sample.libReplacement.
Proof.
  split; [reflexivity|].
  destruct (proj1 (findModule_follows_replacement Sample.modules 1 _
                     Sample_modules_NoDup eq_refl)
                  Sample.libReplacement eq_refl) as (Hfind & Hderef & _).
  split; [exact Hfind | exact Hderef].
Defined.

Lemma vendored_directory_from_original_path_witness :
  let text := "# github.com/foo/bar v1.2.3 => ../local/bar" in
  strings.HasPrefix (strings.TrimSpace text) "# " = true
  /\ parseVendoredLine "/home/dev/proj" text
     = Ok (Some (vendoredReplacement "/home/dev/proj" "github.com/foo/bar"
                   (Some "v1.2.3") "../local/bar" None))
  /\ (Dir <$> Replace (vendoredReplacement "/home/dev/proj"
                         "github.com/foo/bar" (Some "v1.2.3")
                         "../local/bar" None))
     = Some "/home/dev/proj/vendor/github.com/foo/bar".
Proof.
  cbv zeta. split; [reflexivity|].
  destruct (proj1 (vendored_directory_from_original_path "/home/dev/proj"
                     "# github.com/foo/bar v1.2.3 => ../local/bar" eq_refl)
                  "github.com/foo/bar" (Some "v1.2.3") "../local/bar" None
                  eq_refl ltac:(discriminate) ltac:(discriminate))
    as (Hline & _ & Hclean & _).
  split; [exact Hline|].
  apply (Hclean ["home"; "dev"; "proj"] ["github.com"; "foo"; "bar"]).
  - split; [discriminate|]. split; [reflexivity | right; reflexivity].
  - split; [discriminate|]. split; [reflexivity | left; reflexivity].
  - reflexivity.
Defined.


Lemma malformed_edge_line_is_fatal_witness :
  let reader :=
    "example.com/app example.com/lib@v1.0.0" +:+ Sample.LF
    +:+ "example.com/app example.com/dep v1.2.3" +:+ Sample.LF in
  let text := "example.com/app example.com/dep v1.2.3" in
  In text (bufio.scanLines reader)
  /\ malformedEdge text
  /\ parseModuleGraph reader Sample.modules
     = Err (ErrFormatted ("expected two fields per line, but got 3: " +:+ text)).
Proof.
  cbv zeta.
  assert (In "example.com/app example.com/dep v1.2.3"
             (bufio.scanLines
                ("example.com/app example.com/lib@v1.0.0" +:+ Sample.LF
                 +:+ "example.com/app example.com/dep v1.2.3" +:+ Sample.LF)))
    as Hin by (right; left; reflexivity).
  assert (malformedEdge "example.com/app example.com/dep v1.2.3") as Hbad
      by (split; [discriminate | vm_compute; discriminate]).
  split; [exact Hin|]. split; [exact Hbad|].
  destruct (malformed_edge_line_is_fatal _ Sample.modules _ Hin Hbad)
    as (_ & _ & Hfirst & _).
  apply (Hfirst ["example.com/app example.com/lib@v1.0.0"] []); [reflexivity|].
  constructor; [|constructor].
  intros [_ Hlen]. apply Hlen. reflexivity.
Defined.

Lemma dangling_edge_is_dropped_witness :
  let text := "example.com/dep@v1.2.3 example.com/gone@v0.1.0" in
  danglingEdge Sample.modules text
  /\ parseModuleGraphLine Sample.modules text = Ok Sample.modules
  /\ parseModuleGraph (text +:+ Sample.LF) Sample.modules = Ok Sample.modules.
Proof.
  cbv zeta.
  assert (danglingEdge Sample.modules
            "example.com/dep@v1.2.3 example.com/gone@v0.1.0") as Hd.
  { exists "example.com/dep@v1.2.3", "example.com/gone@v0.1.0".
    split; [reflexivity | right; reflexivity]. }
  destruct (dangling_edge_is_dropped Sample.modules _ Hd) as (Hline & _ & Hall).
  split; [exact Hd|]. split; [exact Hline|].
  apply Hall. constructor; [right; exact Hd | constructor].
Defined.

Lemma local_replacement_resolved_against_main_module_witness :
  inModuleCache Sample.world Sample.brokenReplacement = false
  /\ filepath.IsAbs (Path Sample.brokenReplacement) = false
  /\ localModulePath "/src/app2" Sample.brokenReplacement = "/src/broken"
  /\ filepath.IsAbs (localModulePath "/src/app2" Sample.brokenReplacement)
     = filepath.IsAbs "/src/app2"
  /\ IsGoModule Sample.world "/src/broken" = false
  /\ GetModules Sample.world "/src/app2"
     = (Err (ErrWrapped
               "resolving local module ../broken failed: not a Go module"
               ErrNoGoModule), []).
Proof.
  destruct (local_replacement_resolved_against_main_module
              Sample.world "/src/app2" Sample.brokenReplacement
              eq_refl eq_refl) as (Hpath & Habs & Hfail).
  destruct (Hfail eq_refl) as (_ & _ & Hbuild).
  split; [reflexivity|]. split; [reflexivity|].
  split; [exact Hpath|]. split; [exact Habs|]. split; [reflexivity|].
  refine (proj2 (Hbuild
            [Sample.app2Record;
             vendoredModule "/src/app2" "example.com/dep" "v1.2.3"]
            (vendoredReplacement "/src/app2" "example.com/x" (Some "v0.3.0")
                                 "../broken" None)
            [] eq_refl eq_refl eq_refl eq_refl) _ [] eq_refl).
Defined.

Lemma unresolved_local_version_is_not_fatal_witness :
  let warning :=
    "failed to resolve version of local module example.com/real-lib: "
    +:+ "repository does not exist" +:+ Sample.LF in
  GetModuleVersion Sample.world (Dir Sample.libReplacement)
  = Err (ErrExternal "repository does not exist")
  /\ resolveLocalModule Sample.world "/src/app" Sample.libReplacement
     = (Ok (withPath "example.com/real-lib" Sample.libReplacement), [warning])
  /\ isOk (fst (GetModules Sample.world "/src/app")) = true
  /\ snd (GetModules Sample.world "/src/app") = [warning].
Proof.
  cbv zeta.
  destruct (unresolved_local_version_is_not_fatal
              Sample.world "/src/app" Sample.libReplacement Sample.libRecord
              "module /src/lib" (ErrExternal "repository does not exist")
              eq_refl eq_refl eq_refl eq_refl eq_refl eq_refl)
    as (Hres & _ & Hloop).
  destruct (Hloop (mkModule "" false "example.com/lib"
                            (Some Sample.libReplacement) "v1.0.0" [] false)
                  eq_refl eq_refl) as (_ & Hbuild).
  split; [reflexivity|]. split; [exact Hres|].
  pose proof (Hbuild [Sample.appRecord] [Sample.appRecord] []
                [vendoredModule "/src/app" "example.com/dep" "v1.2.3"]
                [vendoredModule "/src/app" "example.com/dep" "v1.2.3"] []
                Sample.graph _ eq_refl eq_refl eq_refl eq_refl eq_refl eq_refl)
    as Hget.
  rewrite Hget. split; reflexivity.
Defined.

(** C7, the claim as stated fails: with the project given as [.], the
    default of the command line, the replacement [../lib] is looked up
    under [../lib], which is no absolute path, and is resolved there. *)
Lemma relative_main_module_path_stays_relative :
  inModuleCache Sample.world Sample.libReplacement = false
  /\ filepath.IsAbs (Path Sample.libReplacement) = false
  /\ localModulePath "." Sample.libReplacement = "../lib"
  /\ filepath.IsAbs (localModulePath "." Sample.libReplacement) = false
  /\ fst (resolveLocalModule Sample.world "." Sample.libReplacement)
     = Ok (withPath "example.com/real-lib" Sample.libReplacement).
Proof. repeat split; reflexivity. Qed.

(** A line that fills the scanner's buffer ends the scan: nothing of it
    or after it is yielded. *)
Lemma scanFrom_too_long (s : string) :
  forall cur n,
    noLF s = true ->
    (n < bufio.MaxScanTokenSize <= n + N.of_nat (String.length s))%N ->
    forall rest, bufio.scanFrom cur n (s +:+ rest) = [].
Proof.
  induction s as [|c s IH]; intros cur n Hlf Hn rest.
  - simpl in Hn. lia.
  - simpl in Hlf. apply andb_true_iff in Hlf as [Hc Hs].
    apply negb_true_iff in Hc.
    rewrite append_cons. simpl. rewrite Hc.
    destruct (bufio.MaxScanTokenSize <=? n + 1)%N eqn:E; [reflexivity|].
    apply N.leb_gt in E. apply IH; [exact Hs|].
    simpl String.length in Hn. lia.
Qed.

Lemma length_repeatByte (c : ascii) (n : nat) :
  String.length (repeatByte c n) = n.
Proof. induction n as [|n IH]; simpl; [reflexivity | rewrite IH; reflexivity]. Qed.

Lemma noLF_repeatByte (c : ascii) (n : nat) :
  Ascii.eqb c bufio.LF = false -> noLF (repeatByte c n) = true.
Proof.
  intros Hc. induction n as [|n IH]; simpl; [reflexivity|].
  rewrite Hc, IH. reflexivity.
Qed.

(** [scanner.Err()] is never read: an edge stream whose line reaches
    [bufio.MaxScanTokenSize] bytes is cut there without an error. *)
Lemma parseModuleGraph_stops_at_long_line (modules : list Module)
  (c : ascii) (rest : string) :
  Ascii.eqb c bufio.LF = false ->
  parseModuleGraph
    (repeatByte c (N.to_nat bufio.MaxScanTokenSize) +:+ rest) modules
  = Ok modules.
Proof.
  intros Hc. unfold parseModuleGraph, bufio.scanLines.
  rewrite scanFrom_too_long; [reflexivity | apply noLF_repeatByte, Hc |].
  rewrite length_repeatByte, N2Nat.id. unfold bufio.MaxScanTokenSize. lia.
Qed.

(** The scenario of a main module and two modules [A] and [B] with the
    edges [main A] and [A B]. *)
Example three_modules_two_edges :
  let main := mkModule "/p" true "main" None "" [] false in
  let A := mkModule "/c/A" false "A" None "" [] false in
  let B := mkModule "/c/B" false "B" None "" [] false in
  parseModuleGraph ("main A" +:+ Sample.LF +:+ "A B" +:+ Sample.LF) [main; A; B]
  = Ok [withDependencies [SliceElem 1] main;
        withDependencies [SliceElem 2] A;
        B].
Proof. reflexivity. Qed.


(** The tag [v2.0.0] of the repository at [/src/annotated] is an
    annotated one: its reference holds the hash of the tag object, which
    names the head commit.  The comparison of hashes does not find it,
    and the version is the pseudo-version. *)
Lemma annotated_tag_at_head_is_not_found :
  git.Tags Edge.annotatedRepo
  = Ok [git.mkReference "refs/tags/v2.0.0" Edge.tagObjectHash]
  /\ Edge.tagTarget Edge.tagObjectHash = Some (git.refHash Sample.headRef)
  /\ GetVersionFromTag Edge.world "/src/annotated" = Err ErrObjectNotFound
  /\ GetModuleVersion Edge.world "/src/annotated"
     = Ok "v0.0.0-20210101010000-0123456789ab".
Proof. vm_compute. repeat split; reflexivity. Qed.

(** An author time at the ends of [int64] is shown as the package shows
    it, the sum with the zone offset and the absolute time wrapping
    around. *)
Example Format_at_the_ends_of_int64 :
  time.Year (time.mkTime (- 2 ^ 63) 0) = 292277026596%Z
  /\ time.Format20060102150405 (time.mkTime (- 2 ^ 63) 0)
     = "2922770265961204153008"
  /\ time.Format20060102150405 (time.mkTime (2 ^ 63 - 1) 0)
     = "2922770265961204153007"
  /\ time.Format20060102150405 (time.mkTime (2 ^ 63 - 1) 1)
     = "2922770265961204153008".
Proof. vm_compute. repeat split; reflexivity. Qed.

